(** * csv-info-mcp: the query dispatch loop, the tool catalog adapter, the
    capability resolver and the file lookup, embedded from [src/client.py]
    and [src/server.py].

    Definitions come first.
    - [Py]: the fragment of Python's run-time behaviour the two modules rely
      on (exception classes, results, JSON-like values, dictionaries).
    - [Interaction]: programs that talk to external collaborators (the
      session transport, the chat endpoint, the command line) as finite
      trees of requests, run against an arbitrary collaborator with a log
      of the requests made.
    - [Pathlib] and [FileSystem]: the part of [pathlib] used by the file
      lookup and a tree model of a file system without symbolic links.
    - [Server] and [Client]: the functions of the repository.
    - [Examples]: concrete collaborators and inputs.

    The facts follow: [PathlibFacts], [FileSystemFacts], [LookupFacts]
    (file lookup), [ResolverFacts] (capability resolver), [RunFacts],
    [AdapterFacts] (tool catalog adapter) and [DispatchFacts] (query
    dispatch loop). *)

From Stdlib Require Import Ascii String.
From stdpp Require Import gmap strings list fin_maps.

Set Default Proof Using "Type".
#[local] Set Warnings "-register-all".

(* ===================================================================== *)
(** ** Python values and exceptions *)
(* ===================================================================== *)

Module Py.

(** The exception classes that the modelled functions can raise
    themselves.  [Other] stands for an exception coming from a
    collaborator (transport failure, endpoint failure, ...). *)
Inductive exn :=
| ValueError (msg : string)
| KeyError (key : string)
| IndexError
| TypeError
| AttributeError
| AssertionError (msg : string)
| UnboundLocalError
| Other (msg : string).

Inductive result (A : Type) :=
| Ok (a : A)
| Err (e : exn).
Arguments Ok {A} a.
Arguments Err {A} e.

Definition is_value_error (e : exn) : bool :=
  match e with ValueError _ => true | _ => false end.

(** JSON-like values ([Any] in the type hints of the source).  A [dict]
    is kept as an association list in insertion order: Python dictionaries
    iterate in that order, and the order decides which exception a
    comprehension raises first. *)
Inductive json :=
| JNone
| JBool (b : bool)
| JInt (z : Z)
| JStr (s : string)
| JList (l : list json)
| JDict (d : list (string * json)).

(** [d[k]] on a dictionary. *)
Fixpoint dict_get (d : list (string * json)) (k : string) : option json :=
  match d with
  | [] => None
  | (k', v) :: rest => if decide (k' = k) then Some v else dict_get rest k
  end.

Definition keys (d : list (string * json)) : list string := d.*1.

(** [v[k]] on an arbitrary value: only a [dict] has string keys. *)
Definition getitem (v : json) (k : string) : result json :=
  match v with
  | JDict d =>
      match dict_get d k with
      | Some x => Ok x
      | None => Err (KeyError k)
      end
  | _ => Err TypeError
  end.

(** [v.items()]: only a [dict] has the method. *)
Definition items (v : json) : result (list (string * json)) :=
  match v with
  | JDict d => Ok d
  | _ => Err AttributeError
  end.

(** The line feed used by ["\n".join(...)]. *)
Definition nl : string := String (Ascii.ascii_of_nat 10) EmptyString.

(** Truthiness of an [Optional[str]]. *)
Definition truthy_str (o : option string) : bool :=
  match o with
  | Some (String _ _) => true
  | _ => false
  end.

(** Truthiness of an optional sequence. *)
Definition truthy_seq {A} (o : option (list A)) : bool :=
  match o with
  | Some (_ :: _) => true
  | _ => false
  end.

(** [sep.join(items)], where an item that is [None] makes [join] raise
    [TypeError]. *)
Fixpoint all_str (l : list (option string)) : option (list string) :=
  match l with
  | [] => Some []
  | Some s :: rest =>
      match all_str rest with
      | Some r => Some (s :: r)
      | None => None
      end
  | None :: _ => None
  end.

Definition join (sep : string) (l : list (option string)) : result string :=
  match all_str l with
  | Some ss => Ok (String.concat sep ss)
  | None => Err TypeError
  end.

End Py.

(* ===================================================================== *)
(** ** Programs interacting with external collaborators *)
(* ===================================================================== *)

Module Interaction.
Import Py.

Section Prog.
(** [E] is the type of requests and [answer e] the type of the answer to
    the request [e]. *)
Context {E : Type} {answer : E -> Type}.

(** A program either finishes with a value or issues a request and
    continues with the collaborator's answer, which may itself be an
    exception. *)
Inductive prog (R : Type) :=
| Ret (r : R)
| Vis (e : E) (k : result (answer e) -> prog R).
Arguments Ret {R} r.
Arguments Vis {R} e k.

Fixpoint pbind {R Q} (p : prog R) (f : R -> prog Q) : prog Q :=
  match p with
  | Ret r => f r
  | Vis e k => Vis e (fun x => pbind (k x) f)
  end.

(** A collaborator answers a request knowing everything that was
    requested before. *)
Definition handler : Type := forall e : E, list E -> result (answer e).

(** Running a program against a collaborator, logging the requests. *)
Fixpoint run {R} (h : handler) (p : prog R) (log : list E) : R * list E :=
  match p with
  | Ret r => (r, log)
  | Vis e k => run h (k (h e log)) (log ++ [e])
  end.

(** The monad of the modelled code: a mutable store [S] (module-level
    globals), exceptions, and requests. *)
Definition M (S A : Type) : Type := S -> prog (result A * S).

Definition ret {S A} (a : A) : M S A := fun s => Ret (Ok a, s).
Definition raise {S A} (e : exn) : M S A := fun s => Ret (Err e, s).
Definition bind {S A B} (m : M S A) (f : A -> M S B) : M S B :=
  fun s => pbind (m s) (fun '(r, s') =>
    match r with
    | Ok a => f a s'
    | Err e => Ret (Err e, s')
    end).
Definition get {S} : M S S := fun s => Ret (Ok s, s).
Definition put {S} (s : S) : M S unit := fun _ => Ret (Ok tt, s).
(** [await e]: issue the request; an exception answer propagates. *)
Definition await {S} (e : E) : M S (answer e) :=
  fun s => Vis e (fun r => Ret (r, s)).
Definition lift {S A} (r : result A) : M S A := fun s => Ret (r, s).

Definition exec {S A} (h : handler) (m : M S A) (s : S)
  : result A * S * list E :=
  run h (m s) [].
End Prog.

Arguments prog {E} answer R.
Arguments handler {E} answer.
Arguments M {E} answer S A.

Declare Scope py_scope.
Delimit Scope py_scope with py.
Notation "x <- m ;; k" := (bind m (fun x => k))
  (at level 100, m at next level, right associativity) : py_scope.
Notation "m ;;; k" := (bind m (fun _ => k))
  (at level 100, right associativity) : py_scope.

End Interaction.


(* ===================================================================== *)
(** ** [pathlib] on POSIX, as far as the file lookup uses it *)
(* ===================================================================== *)

Module Pathlib.

(** A parsed path: its root (the empty string, one slash or two slashes)
    and its components.  There is no drive on POSIX. *)
Record PurePath := mkPath { root : string; tail : list string }.

#[global] Instance PurePath_eq_dec : EqDecision PurePath.
Proof. solve_decision. Defined.

(** [p[:1] == "/"] and [p[1:]]. *)
Definition starts_with_sep (p : string) : bool :=
  match p with
  | String c _ => bool_decide (c = "/"%char)
  | EmptyString => false
  end.

Definition drop1 (p : string) : string :=
  match p with
  | String _ r => r
  | EmptyString => EmptyString
  end.

(** [posixpath.splitroot]: one leading slash, or three and more, make the
    root ["/"]; exactly two make the root ["//"]. *)
Definition splitroot (p : string) : string * string :=
  if negb (starts_with_sep p) then ("", p)
  else if negb (starts_with_sep (drop1 p)) || starts_with_sep (drop1 (drop1 p))
       then ("/", drop1 p)
       else ("//", drop1 (drop1 p)).

(** [s.split("/")]. *)
Fixpoint split_sep (s : string) : list string :=
  match s with
  | EmptyString => [EmptyString]
  | String c r =>
      if decide (c = "/"%char) then EmptyString :: split_sep r
      else match split_sep r with
           | x :: xs => String c x :: xs
           | [] => [String c EmptyString]
           end
  end.

(** A component is kept when it is neither empty nor a single dot. *)
Definition kept (x : string) : Prop := x <> "" /\ x <> ".".

#[global] Instance kept_dec x : Decision (kept x).
Proof. unfold kept. apply _. Defined.

(** [PurePosixPath(p)]. *)
Definition Path (p : string) : PurePath :=
  let '(r, rel) := splitroot p in
  mkPath r (filter kept (split_sep rel)).

Definition is_absolute (p : PurePath) : bool :=
  if decide (root p = "") then false else true.

(** [p / key]: an absolute [key] replaces [p]; otherwise the components of
    [key] are appended to those of [p]. *)
Definition truediv (p : PurePath) (key : string) : PurePath :=
  let q := Path key in
  if is_absolute q then q else mkPath (root p) (tail p ++ tail q).

(** [str(p)]. *)
Definition str (p : PurePath) : string :=
  match root p, tail p with
  | EmptyString, [] => "."
  | r, t => r +:+ String.concat "/" t
  end.

(** A component that contains no separator. *)
Definition plain (x : string) : Prop := split_sep x = [x].

(** A parsed path: one of the three roots, and components that are kept
    and contain no separator. *)
Definition wf_path (p : PurePath) : Prop :=
  (root p = "" \/ root p = "/" \/ root p = "//") /\
  Forall (fun x => kept x /\ plain x) (tail p).

End Pathlib.

(* ===================================================================== *)
(** ** A file system without symbolic links *)
(* ===================================================================== *)

Module FileSystem.
Import Pathlib.

(** A node is a regular file or a directory with named entries. *)
Inductive node :=
| File
| Dir (entries : gmap string node).

(** A location is the list of names from the root directory. *)
Definition location : Type := list string.

Fixpoint walk (n : node) (loc : location) : option node :=
  match loc with
  | [] => Some n
  | c :: cs =>
      match n with
      | File => None
      | Dir es =>
          match es !! c with
          | Some n' => walk n' cs
          | None => None
          end
      end
  end.

Definition is_dir_at (fs : node) (loc : location) : bool :=
  match walk fs loc with
  | Some (Dir _) => true
  | _ => false
  end.

(** One step of path resolution from a directory: [".."] goes to the
    parent (the root is its own parent), a name goes down. *)
Definition step (loc : location) (c : string) : location :=
  if decide (c = "..") then removelast loc else loc ++ [c].

(** Resolution of the components of a path, the way the kernel does it:
    every component is looked up in a directory. *)
Fixpoint resolve_from (fs : node) (loc : location) (comps : list string)
  : option location :=
  match comps with
  | [] => Some loc
  | c :: cs =>
      if is_dir_at fs loc then resolve_from fs (step loc c) cs else None
  end.

(** Where a path points to: an absolute path is resolved from the root, a
    relative one from the working directory [cwd]. *)
Definition locate (fs : node) (cwd : location) (p : PurePath)
  : option location :=
  resolve_from fs (if is_absolute p then [] else cwd) (tail p).

(** [os.stat]: the node the path points to, if any. *)
Definition stat (fs : node) (cwd : location) (p : PurePath) : option node :=
  match locate fs cwd p with
  | Some loc => walk fs loc
  | None => None
  end.

(** [Path.exists()] and [Path.is_file()]. *)
Definition path_exists (fs : node) (cwd : location) (p : PurePath) : bool :=
  match stat fs cwd p with
  | Some _ => true
  | None => false
  end.

Definition is_file (fs : node) (cwd : location) (p : PurePath) : bool :=
  match stat fs cwd p with
  | Some File => true
  | _ => false
  end.

(** The file a path string denotes lies inside the directory a second
    path string denotes: both resolve, and the directory's location is a
    prefix of the file's. *)
Definition inside (fs : node) (cwd : location) (p d : string) : Prop :=
  match locate fs cwd (Path p), locate fs cwd (Path d) with
  | Some lp, Some ld => ld `prefix_of` lp
  | _, _ => False
  end.

#[global] Instance inside_dec fs cwd p d : Decision (inside fs cwd p d).
Proof. unfold inside. repeat case_match; apply _. Defined.

End FileSystem.


(* ===================================================================== *)
(** ** [src/server.py] *)
(* ===================================================================== *)

Module Server.
Import Py Interaction Pathlib FileSystem.
#[local] Open Scope py_scope.

(** A root as the client lists it: [root.uri.path] may be [None]. *)
Record Root := mkRoot { uri_path : option string; root_name : option string }.

(** The namespace [parse_args()] returns; [--root_directory] has
    [nargs=1], so when given it is a list. *)
Record Args := mkArgs {
  root_directory : option (list string);
  transport : option string
}.

(** What [get_directories] asks of its surroundings. *)
Inductive request :=
| CheckClientCapability
| ListRoots
| ParseArgs.

Definition answer (r : request) : Type :=
  match r with
  | CheckClientCapability => bool
  | ListRoots => list Root
  | ParseArgs => Args
  end.

#[local] Abbreviation await := (Interaction.await (answer := answer)).

(** The module-level global [allowed_directories]. *)
Definition store : Type := option (list string).

Definition initial_store : store := None.

Definition no_roots_from_client : string :=
  "No root directories available from client.".

Definition no_roots_at_all : string :=
  "No root directories available. Please provide a root directory using --root_directory argument or ensure the client supports RootsCapability.".

(** [async def get_directories(ctx)]. *)
Definition get_directories : M answer store (list string) :=
  allowed_directories <- get ;;
  match allowed_directories with
  | Some cached => ret cached
  | None =>
      cap <- await CheckClientCapability ;;
      if (cap : bool) then
        list_roots <- await ListRoots ;;
        let dirs := omap uri_path list_roots in
        if Nat.eqb (length dirs) 0 then
          raise (ValueError no_roots_from_client)
        else
          put (Some dirs) ;;; ret dirs
      else
        args <- await ParseArgs ;;
        match root_directory args with
        | Some rd =>
            match rd with
            | first :: _ => put (Some [first]) ;;; ret [first]
            | [] => raise IndexError
            end
        | None => raise (ValueError no_roots_at_all)
        end
  end.

(** [def find_file_in_allowed_dirs(file_path, allowed_dirs)], run in the
    file system [fs] with working directory [cwd]. *)
Fixpoint find_file_in_allowed_dirs (fs : node) (cwd : location)
    (file_path : string) (allowed_dirs : list string) : option string :=
  match allowed_dirs with
  | [] => None
  | dir :: rest =>
      let potential_path := truediv (Path dir) file_path in
      if path_exists fs cwd potential_path && is_file fs cwd potential_path
      then Some (str potential_path)
      else find_file_in_allowed_dirs fs cwd file_path rest
  end.

(** The request log never mentions the command line. *)
Definition is_parse_args (c : request) : bool :=
  match c with
  | ParseArgs => true
  | _ => false
  end.

(** The invariant of the global: unset, or a non-empty list. *)
Definition store_ok (s : store) : Prop :=
  match s with
  | None => True
  | Some ds => ds <> []
  end.

(** Stores reachable from the initial one by calls of [get_directories]
    against arbitrary collaborators. *)
Inductive reachable : store -> Prop :=
| reach_init : reachable initial_store
| reach_call h s r s' log :
    reachable s ->
    exec h get_directories s = (r, s', log) ->
    reachable s'.

(** A session: successive calls of [get_directories], each against its own
    collaborators, sharing the global. *)
Fixpoint session_run (hs : list (handler answer)) (s : store)
  : list (result (list string) * list request) * store :=
  match hs with
  | [] => ([], s)
  | h :: rest =>
      let '(r, s', log) := exec h get_directories s in
      let '(outs, s'') := session_run rest s' in
      ((r, log) :: outs, s'')
  end.

(** The path the lookup tries for a directory, and whether it is an
    existing regular file. *)
Definition candidate (file_path dir : string) : PurePath :=
  truediv (Path dir) file_path.

Definition regular (fs : node) (cwd : location) (file_path dir : string)
  : bool :=
  path_exists fs cwd (candidate file_path dir)
  && is_file fs cwd (candidate file_path dir).

(** The lookup as the specification words it: the joined path of the first
    directory, in list order, where the path is an existing regular file. *)
Definition first_regular (fs : node) (cwd : location)
    (file_path : string) (allowed_dirs : list string) : option string :=
  match list_find (fun d => regular fs cwd file_path d = true) allowed_dirs with
  | Some (_, d) => Some (str (candidate file_path d))
  | None => None
  end.

End Server.

(* ===================================================================== *)
(** ** [src/client.py] *)
(* ===================================================================== *)

Module Client.
Import Py Interaction.
#[local] Open Scope py_scope.

(** [mcp.Tool]. *)
Record Tool := mkTool {
  name : string;
  description : option string;
  inputSchema : list (string * json)
}.

(** The chat endpoint's answer. *)
Record Function := mkFunction { fn_name : string; arguments : json }.
Record ToolCall := mkToolCall { function_ : Function }.
Record ResponseMessage := mkResponseMessage {
  content : option string;
  tool_calls : option (list ToolCall)
}.
Record ChatResponse := mkChatResponse { message : ResponseMessage }.

(** [mcp.types.CallToolResult]; of the content blocks only the text block
    carries data the client reads. *)
Inductive ContentBlock :=
| TextContent (text : string)
| ImageContent
| AudioContent
| ResourceLink
| EmbeddedResource.

Record CallToolResult := mkCallToolResult {
  result_content : list ContentBlock;
  structuredContent : option (list (string * json));
  isError : bool
}.

(** The dictionaries of the conversation. *)
Record Message := mkMessage {
  role : string;
  msg_content : string;
  tool_name : option string
}.

(** What [process_query] asks of the session and of the chat endpoint. *)
Inductive request :=
| ListTools
| Chat (model : string) (messages : list Message)
       (tools : option (list json)) (think : bool)
| CallTool (tool : string) (args : json).

Definition answer (r : request) : Type :=
  match r with
  | ListTools => list Tool
  | Chat _ _ _ _ => ChatResponse
  | CallTool _ _ => CallToolResult
  end.

Definition opt_str (o : option string) : json :=
  match o with
  | Some s => JStr s
  | None => JNone
  end.

(** The dict comprehension
    [{k: {"type": v["type"]} for k, v in properties.items()}]. *)
Fixpoint narrow_properties (props : list (string * json))
  : result (list (string * json)) :=
  match props with
  | [] => Ok []
  | (k, v) :: rest =>
      match getitem v "type" with
      | Err e => Err e
      | Ok ty =>
          match narrow_properties rest with
          | Err e => Err e
          | Ok out => Ok ((k, JDict [("type", ty)]) :: out)
          end
      end
  end.

(** [def convert_tools_to_ollama_format(tool)]. *)
Definition convert_tools_to_ollama_format (tool : Tool) : result json :=
  match getitem (JDict (inputSchema tool)) "required" with
  | Err e => Err e
  | Ok required =>
      match getitem (JDict (inputSchema tool)) "properties" with
      | Err e => Err e
      | Ok properties =>
          match items properties with
          | Err e => Err e
          | Ok its =>
              match narrow_properties its with
              | Err e => Err e
              | Ok props =>
                  Ok (JDict
                    [("type", JStr "function");
                     ("function", JDict
                       [("name", JStr (name tool));
                        ("description", opt_str (description tool));
                        ("parameters", JDict
                          [("required", required);
                           ("properties", JDict props)])])])
              end
          end
      end
  end.

(** The list comprehension over [response.tools]. *)
Fixpoint convert_all (tools : list Tool) : result (list json) :=
  match tools with
  | [] => Ok []
  | t :: rest =>
      match convert_tools_to_ollama_format t with
      | Err e => Err e
      | Ok d =>
          match convert_all rest with
          | Err e => Err e
          | Ok ds => Ok (d :: ds)
          end
      end
  end.

(** Readers of the adapter's output. *)
Definition out_function (o : json) : result json := getitem o "function".

Definition out_field (o : json) (k : string) : result json :=
  match out_function o with
  | Ok f => getitem f k
  | Err e => Err e
  end.

Definition out_parameter (o : json) (k : string) : result json :=
  match out_field o "parameters" with
  | Ok ps => getitem ps k
  | Err e => Err e
  end.

(** The property names a declaration exposes. *)
Definition exposed (o : json) : list string :=
  match out_parameter o "properties" with
  | Ok (JDict props) => keys props
  | _ => []
  end.

(** The names in a [required] list. *)
Definition required_names (req : json) : list string :=
  match req with
  | JList l => omap (fun x => match x with JStr s => Some s | _ => None end) l
  | _ => []
  end.

#[local] Abbreviation await := (Interaction.await (answer := answer)).

Section Query.
(** [OLLAMA_MODEL], read from the environment, and Python's [str] on the
    values that are only formatted. *)
Context (OLLAMA_MODEL : string) (py_str : json -> string).

(** [f"[Calling tool {tool_name} with args {tool_args}]"]. *)
Definition marker (tool_name : string) (tool_args : json) : string :=
  "[Calling tool " +:+ tool_name +:+ " with args " +:+ py_str tool_args +:+ "]".

(** The locals the [for] loop over [message.tool_calls] assigns. *)
Record loop_vars := mkLoop {
  lv_tool_name : string;
  lv_result : option CallToolResult;
  lv_final_text : list (option string)
}.

(** [for tool in message.tool_calls: ...]. *)
Fixpoint call_tools (calls : list ToolCall) (vars : loop_vars)
  : M answer unit loop_vars :=
  match calls with
  | [] => ret vars
  | tool :: rest =>
      let tool_name := fn_name (function_ tool) in
      let tool_args := arguments (function_ tool) in
      result <- await (CallTool tool_name tool_args) ;;
      call_tools rest
        (mkLoop tool_name (Some result)
           (lv_final_text vars ++ [Some (marker tool_name tool_args)]))
  end.

(** The tool-role message built from the tool's result. *)
Definition tool_message (res : CallToolResult) (tool_name : string)
  : result Message :=
  match structuredContent res with
  | Some sc =>
      match getitem (JDict sc) "result" with
      | Ok v => Ok (mkMessage "tool" (py_str v) (Some tool_name))
      | Err e => Err e
      end
  | None =>
      match result_content res with
      | [] => Err IndexError
      | TextContent text :: _ => Ok (mkMessage "tool" text (Some tool_name))
      | _ :: _ => Err (ValueError "Unsupported content type from tool")
      end
  end.

(** [async def process_query(self, query)]; [session] tells whether
    [self.session] is set. *)
Definition process_query (session : bool) (query : string)
  : M answer unit string :=
  (if session then ret tt
   else raise (AssertionError "Not connected to any MCP server")) ;;;
  let messages := [mkMessage "user" query None] in
  response <- await ListTools ;;
  ollama_tools <- lift (convert_all response) ;;
  response <- await (Chat OLLAMA_MODEL messages (Some ollama_tools) false) ;;
  let final_text : list (option string) := [] in
  let message := message response in
  if truthy_str (content message) then
    let final_text := final_text ++ [content message] in
    lift (join nl final_text)
  else if truthy_seq (tool_calls message) then
    vars <- call_tools (default [] (tool_calls message))
              (mkLoop "" None final_text) ;;
    let messages :=
      if truthy_str (content message)
      then messages ++ [mkMessage "assistant" (default "" (content message)) None]
      else messages in
    result <- lift (match lv_result vars with
                    | Some r => Ok r
                    | None => Err UnboundLocalError
                    end) ;;
    tool_msg <- lift (tool_message result (lv_tool_name vars)) ;;
    let messages := messages ++ [tool_msg] in
    response <- await (Chat OLLAMA_MODEL messages None false) ;;
    let final_text := lv_final_text vars ++ [content (Client.message response)] in
    lift (join nl final_text)
  else
    lift (join nl final_text).

(** The marker of a tool call, and the two chat requests of a query. *)
Definition marker_of (c : ToolCall) : string :=
  marker (fn_name (function_ c)) (arguments (function_ c)).

(** The locals after the loop over [calls], all answered. *)
Definition after_loop (vars : loop_vars) (calls : list ToolCall)
    (answers : list CallToolResult) : loop_vars :=
  mkLoop
    (from_option (fun c => fn_name (function_ c)) (lv_tool_name vars) (last calls))
    (from_option Some (lv_result vars) (last answers))
    (lv_final_text vars ++ map (fun c => Some (marker_of c)) calls).

Definition first_chat (query : string) (ollama_tools : list json) : request :=
  Chat OLLAMA_MODEL [mkMessage "user" query None] (Some ollama_tools) false.

Definition follow_up (query : string) (tool_msg : Message) : request :=
  Chat OLLAMA_MODEL [mkMessage "user" query None; tool_msg] None false.

End Query.

(** The request a tool call turns into. *)
Definition request_of (c : ToolCall) : request :=
  CallTool (fn_name (function_ c)) (arguments (function_ c)).

Definition call_pair (c : ToolCall) : string * json :=
  (fn_name (function_ c), arguments (function_ c)).

(** The collaborator [h] answers the tool calls [calls], issued one after
    the other from the log [log], with the results [answers]. *)
Fixpoint answered (h : handler answer) (log : list request)
    (calls : list ToolCall) (answers : list CallToolResult) : Prop :=
  match calls, answers with
  | [], [] => True
  | c :: cs, a :: rest =>
      h (request_of c) log = Ok a /\
      answered h (log ++ [request_of c]) cs rest
  | _, _ => False
  end.

(** A property schema is a mapping with a [type] key. *)
Definition typed (v : json) : Prop :=
  match v with
  | JDict d => is_Some (dict_get d "type")
  | _ => False
  end.

Definition type_of (v : json) : json :=
  match getitem v "type" with
  | Ok ty => ty
  | Err _ => JNone
  end.

(** A property narrowed to its type. *)
Definition narrowed (kv : string * json) : string * json :=
  (kv.1, JDict [("type", type_of kv.2)]).

(** Requests that invoke a tool, and chat requests. *)
Definition is_call_tool (c : request) : bool :=
  match c with
  | CallTool _ _ => true
  | _ => false
  end.

Definition is_chat (c : request) : bool :=
  match c with
  | Chat _ _ _ _ => true
  | _ => false
  end.

(** The tool invocations of a log, in order. *)
Definition invoked (log : list request) : list (string * json) :=
  omap (fun c => match c with
                 | CallTool t a => Some (t, a)
                 | _ => None
                 end) log.

End Client.


(* ===================================================================== *)
(** ** Concrete collaborators and inputs used by the examples below *)
(* ===================================================================== *)

Module Examples.
Import Py Interaction Pathlib FileSystem.

(** A file system with [/a/x.csv], [/b/x.csv] and [/etc/passwd]. *)
Definition fs_ab : node :=
  Dir {[ "a" := Dir {[ "x.csv" := File ]};
         "b" := Dir {[ "x.csv" := File ]};
         "etc" := Dir {[ "passwd" := File ]} ]}.

(** A client that answers the three requests of the resolver. *)
Definition server_handler (cap : bool) (roots : list Server.Root)
    (args : Server.Args) : handler Server.answer :=
  fun e _ =>
    match e return result (Server.answer e) with
    | Server.CheckClientCapability => Ok cap
    | Server.ListRoots => Ok roots
    | Server.ParseArgs => Ok args
    end.

Definition root_tempdir : Server.Root :=
  Server.mkRoot (Some "/home/miky/mcp-project/tempdir") (Some "Test Root 1").

Definition args_static : Server.Args :=
  Server.mkArgs (Some ["/srv/data"]) (Some "sse").

Definition args_none : Server.Args := Server.mkArgs None (Some "sse").

(** A session and a chat endpoint: the first chat request (the one with
    the tool catalog) is answered by [first], the follow-up by [second]. *)
Definition client_handler (tools : list Client.Tool)
    (first second : Client.ChatResponse)
    (tool_result : string -> json -> Client.CallToolResult)
  : handler Client.answer :=
  fun e _ =>
    match e return result (Client.answer e) with
    | Client.ListTools => Ok tools
    | Client.Chat _ _ (Some _) _ => Ok first
    | Client.Chat _ _ None _ => Ok second
    | Client.CallTool t a => Ok (tool_result t a)
    end.

Definition model : string := "qwen3:8b".

(** A stand-in for Python's [str] on the formatted values. *)
Definition show (v : json) : string :=
  match v with
  | JInt 42 => "42"
  | JStr s => s
  | _ => "{}"
  end.

Definition call_A : Client.ToolCall :=
  Client.mkToolCall (Client.mkFunction "count_csv_rows" (JDict [("file_path", JStr "a.csv")])).

Definition call_B : Client.ToolCall :=
  Client.mkToolCall (Client.mkFunction "count_csv_columns" (JDict [("file_path", JStr "b.csv")])).

Definition two_calls : Client.ChatResponse :=
  Client.mkChatResponse (Client.mkResponseMessage None (Some [call_A; call_B])).

Definition one_call : Client.ChatResponse :=
  Client.mkChatResponse (Client.mkResponseMessage None (Some [call_A])).

Definition text_and_call : Client.ChatResponse :=
  Client.mkChatResponse (Client.mkResponseMessage (Some "hello") (Some [call_A])).

Definition silent : Client.ChatResponse :=
  Client.mkChatResponse (Client.mkResponseMessage None None).

Definition final_answer : Client.ChatResponse :=
  Client.mkChatResponse (Client.mkResponseMessage (Some "done") None).

Definition structured_42 (t : string) (a : json) : Client.CallToolResult :=
  Client.mkCallToolResult [Client.TextContent "42"] (Some [("result", JInt 42)]) false.

(** A result that names the tool it comes from, to tell results apart. *)
Definition echo_tool (t : string) (a : json) : Client.CallToolResult :=
  Client.mkCallToolResult [Client.TextContent t] None false.

(** A result with no structured payload and no content block at all. *)
Definition empty_result (t : string) (a : json) : Client.CallToolResult :=
  Client.mkCallToolResult [] None false.

Definition image_result (t : string) (a : json) : Client.CallToolResult :=
  Client.mkCallToolResult [Client.ImageContent] None false.

(** A descriptor whose [required] list names a property that the
    [properties] mapping does not have. *)
Definition tool_dangling : Client.Tool :=
  Client.mkTool "count_csv_rows" (Some "Count the number of rows in a CSV file")
    [("required", JList [JStr "file_path"]); ("properties", JDict [])].

(** A descriptor with a property whose schema has no [type] key, as an
    optional parameter produces. *)
Definition tool_untyped : Client.Tool :=
  Client.mkTool "head" None
    [("required", JList [JStr "file_path"]);
     ("properties", JDict
        [("file_path", JDict [("type", JStr "string"); ("title", JStr "File Path")]);
         ("limit", JDict [("anyOf", JList [JDict [("type", JStr "integer")];
                                           JDict [("type", JStr "null")]])])])].

(** The descriptor of [count_csv_rows] as the server declares it. *)
Definition tool_rows : Client.Tool :=
  Client.mkTool "count_csv_rows" (Some "Count the number of rows in a CSV file")
    [("properties", JDict
        [("file_path", JDict [("title", JStr "File Path"); ("type", JStr "string")])]);
     ("required", JList [JStr "file_path"]);
     ("title", JStr "count_csv_rowsArguments");
     ("type", JStr "object")].

End Examples.


(* ===================================================================== *)
(** ** Programs inside programs, and [try] ... [except] *)
(* ===================================================================== *)

(** The modules from here to [Scenarios] embed the rest of the two source
    files: the four tools and [validate_directory_path] of the server
    ([Tools]), and the connecting methods, the chat loop and [main] of the
    client ([Shell]).  Their facts are in [LookupMore], [ToolsFacts],
    [ValidationFacts], [AdapterMore], [DispatchMore], [ConnectFacts] and
    [ChatFacts], after the facts above. *)

Module Embedding.
Import Py Interaction.

Section Translate.
(** The requests [E] of a callee are among the requests [F] of its
    caller. *)
Context {E F : Type} {ansE : E -> Type} {ansF : F -> Type}.
Context (inj : E -> F) (conv : forall e, ansF (inj e) -> ansE e).

Definition conv_result (e : E) (r : result (ansF (inj e))) : result (ansE e) :=
  match r with
  | Ok x => Ok (conv e x)
  | Err ex => Err ex
  end.

(** The callee's program, issuing its requests as the caller. *)
Fixpoint translate {R} (p : prog ansE R) : prog ansF R :=
  match p with
  | Ret _ r => Ret _ r
  | Vis _ e k => Vis _ (inj e) (fun x => translate (k (conv_result e x)))
  end.

(** The collaborator the callee faces when the caller has already issued
    the requests [before]. *)
Definition restrict (H : handler ansF) (before : list F) : handler ansE :=
  fun e log => conv_result e (H (inj e) (before ++ map inj log)).

End Translate.

Section Control.
Context {E : Type} {answer : E -> Type}.

(** [try: body except Exception as e: on_error(e)] where every failure
    considered is of class [Exception], as the exceptions the modelled
    code raises itself all are. *)
Definition try_except {S A} (body : M answer S A)
    (on_error : exn -> M answer S A) : M answer S A :=
  fun s => pbind (body s) (fun '(r, s') =>
    match r with
    | Ok a => Ret _ (Ok a, s')
    | Err e => on_error e s'
    end).

(** Which exceptions [except Exception] catches.  The classes the modelled
    code raises itself are subclasses of [Exception]; an exception of a
    collaborator, [Other name], is one unless [base name] holds, as it does
    for the classes outside [Exception]: [SystemExit] (raised by
    [argparse]), [KeyboardInterrupt], [CancelledError]. *)
Definition is_exception (base : string -> bool) (e : exn) : bool :=
  match e with
  | Other name => negb (base name)
  | _ => true
  end.

(** [try: body except Exception as e: on_error(e)]: an exception outside
    [Exception] passes through. *)
Definition try_except_exception {S A} (base : string -> bool)
    (body : M answer S A) (on_error : exn -> M answer S A) : M answer S A :=
  fun s => pbind (body s) (fun '(r, s') =>
    match r with
    | Ok a => Ret _ (Ok a, s')
    | Err e =>
        if is_exception base e then on_error e s' else Ret _ (Err e, s')
    end).

End Control.

End Embedding.

(* ===================================================================== *)
(** ** [src/server.py]: the four tools and the directory validation *)
(* ===================================================================== *)

Module Tools.
Import Py Interaction Embedding Pathlib FileSystem Server.
#[local] Open Scope py_scope.

(** What the tools read of a [polars] data frame: the column names with
    the printed name of their data type, in column order, and the number
    of rows. *)
Record DataFrame := mkDataFrame {
  schema : list (string * string);
  height : nat
}.

Definition columns (df : DataFrame) : list string := (schema df).*1.

(** A tool asks what the resolver asks, and asks [polars] to read a
    file. *)
Inductive request :=
| Resolve (r : Server.request)
| ReadCsv (path : string).

Definition answer (r : request) : Type :=
  match r with
  | Resolve r => Server.answer r
  | ReadCsv _ => DataFrame
  end.

#[local] Abbreviation await := (Interaction.await (answer := answer)).

Definition is_read_csv (r : request) : bool :=
  match r with
  | ReadCsv _ => true
  | Resolve _ => false
  end.

Definition is_resolve (r : request) : bool :=
  match r with
  | Resolve _ => true
  | ReadCsv _ => false
  end.

(** [await get_directories(ctx)] inside a tool. *)
Definition resolve_dirs : M answer store (list string) :=
  fun s => translate Resolve (fun _ x => x) (get_directories s).

(** The collaborator of the resolver inside a tool. *)
Definition resolver_of (H : handler answer) : handler Server.answer :=
  restrict Resolve (fun _ x => x) H [].

(** [def read_csv(file_path)]. *)
Definition read_csv (file_path : string) : M answer store DataFrame :=
  await (ReadCsv file_path).

Section Tools.
(** The file system and working directory of the server process;
    Python's [str] on a list of strings, and on the exceptions other than
    [ValueError]. *)
Context (fs : node) (cwd : location).
Context (py_repr : list string -> string) (py_str_other : exn -> string).
(** The names of the collaborators' exceptions that are outside
    [Exception]. *)
Context (base : string -> bool).

(** [str(e)]: a [ValueError] built from one string prints as that
    string. *)
Definition str_exn (e : exn) : string :=
  match e with
  | ValueError msg => msg
  | _ => py_str_other e
  end.

Definition file_not_found (dirs : list string) : string :=
  "File not found in allowed directories: " +:+ py_repr dirs.

(** [async def get_csv_schema(file_path, ctx)]. *)
Definition get_csv_schema (file_path : string)
  : M answer store (list (string * string)) :=
  try_except_exception base
    (dirs <- resolve_dirs ;;
     let full_file_path := find_file_in_allowed_dirs fs cwd file_path dirs in
     match full_file_path with
     | None => raise (ValueError (file_not_found dirs))
     | Some full_file_path =>
         df <- read_csv full_file_path ;;
         ret (schema df)
     end)
    (fun e => raise (ValueError ("Error getting CSV schema: " +:+ str_exn e))).

(** [async def count_csv_columns(file_path, ctx)]. *)
Definition count_csv_columns (file_path : string) : M answer store nat :=
  try_except_exception base
    (dirs <- resolve_dirs ;;
     let full_file_path := find_file_in_allowed_dirs fs cwd file_path dirs in
     match full_file_path with
     | None => raise (ValueError (file_not_found dirs))
     | Some full_file_path =>
         df <- read_csv full_file_path ;;
         ret (length (columns df))
     end)
    (fun e => raise (ValueError ("Error counting CSV rows: " +:+ str_exn e))).

(** [async def count_csv_rows(file_path, ctx)]. *)
Definition count_csv_rows (file_path : string) : M answer store nat :=
  try_except_exception base
    (dirs <- resolve_dirs ;;
     let full_file_path := find_file_in_allowed_dirs fs cwd file_path dirs in
     match full_file_path with
     | None => raise (ValueError (file_not_found dirs))
     | Some full_file_path =>
         df <- read_csv full_file_path ;;
         ret (height df)
     end)
    (fun e => raise (ValueError ("Error counting CSV rows: " +:+ str_exn e))).

(** [async def read_csv_columns(file_path, ctx)]. *)
Definition read_csv_columns (file_path : string)
  : M answer store (list string) :=
  try_except_exception base
    (dirs <- resolve_dirs ;;
     let full_file_path := find_file_in_allowed_dirs fs cwd file_path dirs in
     match full_file_path with
     | None => raise (ValueError (file_not_found dirs))
     | Some full_file_path =>
         df <- read_csv full_file_path ;;
         ret (columns df)
     end)
    (fun e => raise (ValueError ("Error reading CSV file: " +:+ str_exn e))).

(** What a tool raises for the exception [e] of its [try] body. *)
Definition wrapped (prefix : string) (e : exn) : exn :=
  if is_exception base e then ValueError (prefix +:+ str_exn e) else e.

(** What the four tools have in common, for stating facts about all of
    them: the lines of the [try] body up to the data frame, then a reading
    [post] of the data frame, under the message prefix [prefix]. *)
Definition csv_tool {A} (prefix : string) (post : DataFrame -> A)
    (file_path : string) : M answer store A :=
  try_except_exception base
    (dirs <- resolve_dirs ;;
     match find_file_in_allowed_dirs fs cwd file_path dirs with
     | None => raise (ValueError (file_not_found dirs))
     | Some full_file_path =>
         df <- read_csv full_file_path ;;
         ret (post df)
     end)
    (fun e => raise (ValueError (prefix +:+ str_exn e))).

(** [Path.is_dir()]. *)
Definition is_dir (p : PurePath) : bool :=
  match stat fs cwd p with
  | Some (Dir _) => true
  | _ => false
  end.

(** [Path.resolve()] where no name is a symbolic link: the path is made
    absolute and its parent-directory components are removed, whether or
    not it exists. *)
Definition resolve (p : PurePath) : PurePath :=
  mkPath "/" (foldl step (if is_absolute p then [] else cwd) (tail p)).

(** [def validate_directory_path(path)]. *)
Definition validate_directory_path (path : string) : result PurePath :=
  let path_obj := Path path in
  if negb (path_exists fs cwd path_obj) then
    Err (ValueError ("Directory does not exist: " +:+ path))
  else if negb (is_dir path_obj) then
    Err (ValueError ("Path is not a directory: " +:+ path))
  else Ok (resolve path_obj).

End Tools.

(** A location made of names that can be written in a path: kept, without
    separator, and not the parent-directory name. *)
Definition name_ok (x : string) : Prop := kept x /\ plain x /\ x <> "..".

End Tools.

(* ===================================================================== *)
(** ** [src/client.py]: the [MCPClient] object and [main] *)
(* ===================================================================== *)

Module Shell.
Import Py Interaction Embedding.
#[local] Open Scope py_scope.

(** [s.endswith(suffix)]. *)
Definition endswith (s suffix : string) : bool :=
  bool_decide (String.list_ascii_of_string suffix
               `suffix_of` String.list_ascii_of_string s).

(** The requests of the object: entering the transports and the session on
    the exit stack, initialising the session, reading a line, the requests
    of a query, and closing the exit stack. *)
Inductive request :=
| SseClient (url : string) (timeout : Z)
| StdioClient (command : string) (args : list string)
| OpenSession (list_roots_callback : bool)
| Initialize
| Input (prompt : string)
| Session (r : Client.request)
| Close.

Definition answer (r : request) : Type :=
  match r with
  | Input _ => string
  | Session r => Client.answer r
  | _ => unit
  end.

#[local] Abbreviation await := (Interaction.await (answer := answer)).

(** What the object keeps and shows: whether [self.session] is set;
    whether the attributes [self.stdio], [self.sse] and [self.write] have
    been assigned; the contexts entered on [self.exit_stack], oldest first;
    and the texts printed so far by the methods below, one per call of
    [print] (the diagnostic prints inside [process_query] are left out, as
    they are in [Client.process_query]). *)
Record state := mkState {
  session : bool;
  stdio : bool;
  sse : bool;
  write : bool;
  exit_stack : list request;
  stdout : list string
}.

(** [MCPClient()]. *)
Definition initial_state : state := mkState false false false false [] [].

Definition is_session (r : request) : bool :=
  match r with
  | Session _ => true
  | _ => false
  end.

Definition is_input (r : request) : bool :=
  match r with
  | Input _ => true
  | _ => false
  end.

Definition is_close (r : request) : bool :=
  match r with
  | Close => true
  | _ => false
  end.

(** The four requests of a connection over SSE, in order. *)
Definition sse_handshake (url : string) : list request :=
  [SseClient url 60; OpenSession true; Initialize; Session Client.ListTools].

(** The object with other printed texts. *)
Definition with_stdout (out : list string) (st : state) : state :=
  mkState (session st) (stdio st) (sse st) (write st) (exit_stack st) out.

(** The object with one more context on the exit stack. *)
Definition pushed (r : request) (st : state) : state :=
  mkState (session st) (stdio st) (sse st) (write st)
    (exit_stack st ++ [r]) (stdout st).

(** The object after [self.stdio, self.write = ...], after
    [self.sse, self.write = ...] and after [self.session = ...]. *)
Definition with_stdio_write (st : state) : state :=
  mkState (session st) true (sse st) true (exit_stack st) (stdout st).

Definition with_sse_write (st : state) : state :=
  mkState (session st) (stdio st) true true (exit_stack st) (stdout st).

Definition with_session (st : state) : state :=
  mkState true (stdio st) (sse st) (write st) (exit_stack st) (stdout st).

(** [print(text)]. *)
Definition print (text : string) : M answer state unit :=
  fun st => Ret _ (Ok tt, with_stdout (stdout st ++ [text]) st).

(** [await self.exit_stack.enter_async_context(...)]: the context is
    pushed on the exit stack when it has been entered. *)
Definition enter (r : request) : M answer state (answer r) :=
  fun st => Vis _ r (fun x =>
    match x with
    | Ok v => Ret _ (Ok v, pushed r st)
    | Err e => Ret _ (Err e, st)
    end).

(** The three assignments to attributes of the object. *)
Definition set_stdio_write : M answer state unit :=
  fun st => Ret _ (Ok tt, with_stdio_write st).

Definition set_sse_write : M answer state unit :=
  fun st => Ret _ (Ok tt, with_sse_write st).

Definition set_session : M answer state unit :=
  fun st => Ret _ (Ok tt, with_session st).

(** A query run as a method of the object; it prints nothing that is
    modelled and leaves the object as it is. *)
Definition lift_query {A} (m : M Client.answer unit A) : M answer state A :=
  fun st => pbind (translate Session (fun _ x => x) (m tt))
                  (fun '(r, _) => Ret _ (r, st)).

(** The collaborator a query faces after the requests [before]. *)
Definition session_of (H : handler answer) (before : list request)
  : handler Client.answer :=
  restrict Session (fun _ x => x) H before.

(** [try: body finally: final], where the value of [body] tells through
    [inside] whether control is still inside the [try] block (a loop of
    [body] cut while running): then [final] has not been run.  Otherwise
    [final] runs, and an exception of [final] replaces the outcome of
    [body]. *)
Definition try_finally {A} (inside : A -> bool) (body : M answer state A)
    (final : M answer state unit) : M answer state A :=
  fun st => pbind (body st) (fun '(r, st') =>
    match r with
    | Ok a =>
        if inside a then Ret _ (Ok a, st')
        else pbind (final st') (fun '(rf, st'') =>
          match rf with
          | Ok _ => Ret _ (Ok a, st'')
          | Err e => Ret _ (Err e, st'')
          end)
    | Err e0 =>
        pbind (final st') (fun '(rf, st'') =>
          match rf with
          | Ok _ => Ret _ (Err e0, st'')
          | Err e => Ret _ (Err e, st'')
          end)
    end).

Section Methods.
(** [OLLAMA_MODEL]; Python's [str] on formatted values, on a list of
    names and on an exception; [str.strip], [str.lower] and
    [traceback.format_exc]. *)
Context (OLLAMA_MODEL : string) (py_str : json -> string).
Context (py_repr : list string -> string) (str_exn : exn -> string).
Context (strip lower : string -> string) (format_exc : exn -> string).

Definition connected_banner (tools : list Client.Tool) : string :=
  nl +:+ "Connected to server with tools: " +:+ py_repr (map Client.name tools).

(** [async def connect_to_sse_server(self, url)]. *)
Definition connect_to_sse_server (url : string) : M answer state unit :=
  enter (SseClient url 60) ;;;
  set_stdio_write ;;;
  enter (OpenSession true) ;;;
  set_session ;;;
  await Initialize ;;;
  tools <- await (Session Client.ListTools) ;;
  print (connected_banner tools).

(** [async def connect_to_server(self, server_script_path)]. *)
Definition connect_to_server (server_script_path : string)
  : M answer state unit :=
  let is_python := endswith server_script_path ".py" in
  let is_js := endswith server_script_path ".js" in
  if negb (is_python || is_js) then
    raise (ValueError "Server script must be a .py or .js file")
  else
    let command := if is_python then "python" else "node" in
    enter (StdioClient command [server_script_path]) ;;;
    set_sse_write ;;;
    enter (OpenSession false) ;;;
    set_session ;;;
    await Initialize ;;;
    tools <- await (Session Client.ListTools) ;;
    print (connected_banner tools).

(** [self.process_query(query)]. *)
Definition process_query (query : string) : M answer state string :=
  st <- get ;;
  lift_query (Client.process_query OLLAMA_MODEL py_str (session st) query).

Definition prompt : string := nl +:+ "Query: ".

(** One pass through the body of [while True]; the value tells whether
    the loop was left by [break]. *)
Definition chat_iteration : M answer state bool :=
  try_except
    (line <- await (Input prompt) ;;
     let query := strip line in
     if decide (lower query = "quit") then ret true
     else
       response <- process_query query ;;
       print (nl +:+ response) ;;;
       ret false)
    (fun e =>
       print (format_exc e) ;;;
       print (nl +:+ "Error: " +:+ str_exn e) ;;;
       ret false).

(** The first [fuel] passes of [while True]: [true] when the loop was left
    by [break], [false] when it is still running after [fuel] passes. *)
Fixpoint chat_passes (fuel : nat) : M answer state bool :=
  match fuel with
  | 0 => ret false
  | S n =>
      left <- chat_iteration ;;
      if (left : bool) then ret true else chat_passes n
  end.

(** [async def chat_loop(self)], cut after [fuel] passes. *)
Definition chat_loop (fuel : nat) : M answer state bool :=
  print (nl +:+ "MCP Client Started!") ;;;
  print "Type your queries or 'quit' to exit." ;;;
  chat_passes fuel.

(** The object after a query has been answered or has failed inside the
    loop: the answer is shown, or the traceback and the error. *)
Definition reported (e : exn) (st : state) : state :=
  with_stdout
    (stdout st ++ [format_exc e; nl +:+ "Error: " +:+ str_exn e]) st.

Definition after_query (r : result string) (st : state) : state :=
  match r with
  | Ok response => with_stdout (stdout st ++ [nl +:+ response]) st
  | Err e => reported e st
  end.

(** The object once the loop has printed its two opening lines. *)
Definition greeted (st : state) : state :=
  with_stdout
    (stdout st ++ [nl +:+ "MCP Client Started!";
                   "Type your queries or 'quit' to exit."]) st.

(** The object once the exit stack has been closed: the stack is empty,
    whether or not closing raised. *)
Definition closed (st : state) : state :=
  mkState (session st) (stdio st) (sse st) (write st) [] (stdout st).

(** [async def cleanup(self)]. *)
Definition cleanup : M answer state unit :=
  fun st => Vis _ Close (fun x => Ret _ (x, closed st)).

(** [async def main()], with the loop cut after [fuel] passes: the value
    is [true] when [main] has returned, and [false] when the loop is still
    running after [fuel] passes, in which case the [finally] clause has
    not been reached. *)
Definition main (fuel : nat) : M answer state bool :=
  try_finally negb
    (connect_to_sse_server "http://localhost:8000/sse" ;;;
     chat_loop fuel)
    cleanup.

End Methods.

End Shell.

(* ===================================================================== *)
(** ** More concrete collaborators and inputs *)
(* ===================================================================== *)

Module Scenarios.
Import Py Interaction Pathlib FileSystem Examples.

(** A file system with [/srv/data/sales.csv] and an empty [/srv/empty]. *)
Definition fs_srv : node :=
  Dir {[ "srv" := Dir {[ "data" := Dir {[ "sales.csv" := File ]};
                         "empty" := Dir ∅ ]} ]}.

Definition sales : Tools.DataFrame :=
  Tools.mkDataFrame [("region", "String"); ("amount", "Int64")] 42.

(** A stand-in for Python's [str] on a list of strings. *)
Definition show_list (l : list string) : string :=
  "[" +:+ String.concat ", " (map (fun s => "'" +:+ s +:+ "'") l) +:+ "]".

(** A stand-in for Python's [str] on an exception. *)
Definition show_exn (e : exn) : string :=
  match e with
  | ValueError msg => msg
  | AssertionError msg => msg
  | Other msg => msg
  | KeyError key => "'" +:+ key +:+ "'"
  | IndexError => "list index out of range"
  | _ => ""
  end.

(** The collaborators of a tool: those of the resolver, and a reader that
    answers every read with [read]. *)
Definition tools_handler (cap : bool) (roots : list Server.Root)
    (args : Server.Args) (read : result Tools.DataFrame)
  : handler Tools.answer :=
  fun e _ =>
    match e return result (Tools.answer e) with
    | Tools.Resolve r => server_handler cap roots args r []
    | Tools.ReadCsv _ => read
    end.

(** The lines a user types, one per [input]; when they are used up,
    [input] raises (end of file). *)
Definition count_inputs (log : list Shell.request) : nat :=
  length (filter (fun r => Shell.is_input r = true) log).

Definition shell_handler (lines : list string)
    (session : handler Client.answer) : handler Shell.answer :=
  fun e log =>
    match e return result (Shell.answer e) with
    | Shell.Input _ =>
        match lines !! count_inputs log with
        | Some line => Ok line
        | None => Err (Other "EOF when reading a line")
        end
    | Shell.Session r => session r []
    | Shell.SseClient _ _ => Ok tt
    | Shell.StdioClient _ _ => Ok tt
    | Shell.OpenSession _ => Ok tt
    | Shell.Initialize => Ok tt
    | Shell.Close => Ok tt
    end.

(** A transport that cannot be reached. *)
Definition unreachable : handler Shell.answer :=
  fun e _ =>
    match e return result (Shell.answer e) with
    | Shell.Close => Ok tt
    | Shell.Input _ => Ok "quit"
    | _ => Err (Other "connection refused")
    end.

(** A session whose tools can fail: [tool_result] may answer with an
    exception. *)
Definition client_handler_with (tools : list Client.Tool)
    (first second : Client.ChatResponse)
    (tool_result : string -> json -> result Client.CallToolResult)
  : handler Client.answer :=
  fun e _ =>
    match e return result (Client.answer e) with
    | Client.ListTools => Ok tools
    | Client.Chat _ _ (Some _) _ => Ok first
    | Client.Chat _ _ None _ => Ok second
    | Client.CallTool t a => tool_result t a
    end.

(** Counting rows works, counting columns times out. *)
Definition rows_only (t : string) (a : json) : result Client.CallToolResult :=
  if decide (t = "count_csv_rows") then Ok (structured_42 t a)
  else Err (Other "timed out").

(** The object once connected over SSE. *)
Definition online : Shell.state :=
  Shell.mkState true true false true
    [Shell.SseClient "http://localhost:8000/sse" 60; Shell.OpenSession true]
    [].

(** The names of the exception classes outside [Exception]. *)
Definition outside_exception (name : string) : bool :=
  bool_decide (name ∈ ["SystemExit"; "KeyboardInterrupt"; "CancelledError";
                       "GeneratorExit"]).

(** The collaborators of a tool when the command line cannot be parsed:
    [argparse] exits. *)
Definition argparse_exits : handler Tools.answer :=
  fun e _ =>
    match e return result (Tools.answer e) with
    | Tools.Resolve Server.CheckClientCapability => Ok false
    | Tools.Resolve Server.ListRoots => Ok []
    | Tools.Resolve Server.ParseArgs => Err (Other "SystemExit")
    | Tools.ReadCsv _ => Err (Other "unreachable")
    end.

(** A transport that is entered, and a session that cannot be. *)
Definition no_session : handler Shell.answer :=
  fun e _ =>
    match e return result (Shell.answer e) with
    | Shell.SseClient _ _ => Ok tt
    | Shell.Close => Ok tt
    | Shell.Input _ => Ok "quit"
    | _ => Err (Other "handshake failed")
    end.

(** Stand-ins for [str.strip], [str.lower] and [traceback.format_exc]. *)
Definition no_strip (s : string) : string := s.
Definition no_lower (s : string) : string := s.
Definition trace_of (e : exn) : string := "Traceback (most recent call last):".

End Scenarios.


(* ===================================================================== *)
(** ** Facts about paths: parsing a printed path gives the path back *)
(* ===================================================================== *)

Module PathlibFacts.
Import Pathlib.

Lemma split_sep_cons s : exists x xs, split_sep s = x :: xs.
Proof.
  induction s as [|c r IH]; simpl; [eauto |].
  destruct IH as (x & xs & ->). case_decide; eauto.
Qed.

Lemma split_sep_plain s : Forall plain (split_sep s).
Proof.
  induction s as [|c r IH]; simpl.
  - constructor; [reflexivity | constructor].
  - case_decide as Hc.
    + constructor; [reflexivity | exact IH].
    + destruct (split_sep r) as [|x xs] eqn:Hr.
      * constructor; [| constructor].
        unfold plain. simpl. rewrite decide_False by exact Hc. reflexivity.
      * inversion IH as [|? ? Hx Hxs]; subst.
        constructor; [| exact Hxs].
        unfold plain in *. simpl. rewrite decide_False by exact Hc.
        rewrite Hx. reflexivity.
Qed.

Lemma split_sep_app_sep s1 s2 :
  split_sep (s1 +:+ String "/" s2) = split_sep s1 ++ split_sep s2.
Proof.
  induction s1 as [|c r IH]; simpl.
  - reflexivity.
  - rewrite IH. case_decide; [reflexivity |].
    destruct (split_sep_cons r) as (x & xs & ->). reflexivity.
Qed.

Lemma split_sep_concat l :
  l <> [] -> Forall plain l -> split_sep (String.concat "/" l) = l.
Proof.
  induction l as [|x l IH]; intros Hne Hall; [congruence |].
  inversion Hall as [|? ? Hx Hl]; subst.
  destruct l as [|y l'].
  - simpl. exact Hx.
  - change (String.concat "/" (x :: y :: l'))
      with (x +:+ String "/" (String.concat "/" (y :: l'))).
    rewrite split_sep_app_sep, Hx, IH by (congruence || assumption).
    reflexivity.
Qed.

Lemma plain_no_leading_sep x : plain x -> starts_with_sep x = false.
Proof.
  destruct x as [|c r]; [reflexivity |].
  unfold plain. simpl. intros H.
  apply bool_decide_eq_false. intros ->.
  rewrite decide_True in H by reflexivity.
  destruct (split_sep_cons r) as (y & ys & Hr). rewrite Hr in H.
  discriminate.
Qed.

Lemma concat_no_leading_sep l :
  Forall (fun x => kept x /\ plain x) l ->
  starts_with_sep (String.concat "/" l) = false.
Proof.
  destruct l as [|x l]; [reflexivity |].
  intros Hall. inversion Hall as [|? ? [[Hne _] Hx] _]; subst.
  pose proof (plain_no_leading_sep x Hx) as Hs.
  destruct x as [|c r]; [congruence |].
  destruct l; simpl in *; exact Hs.
Qed.

Lemma filter_kept_id l :
  Forall (fun x => kept x /\ plain x) l -> filter kept l = l.
Proof.
  induction 1 as [|x l [Hk _] _ IH]; [reflexivity |].
  rewrite filter_cons_True by exact Hk. by rewrite IH.
Qed.

Lemma Forall_plain_of l :
  Forall (fun x => kept x /\ plain x) l -> Forall plain l.
Proof. intros H. eapply Forall_impl; [exact H |]. intros x [_ Hx]. exact Hx. Qed.

(** The components of a relative string, once printed, parse back. *)
Lemma components_concat l :
  Forall (fun x => kept x /\ plain x) l ->
  filter kept (split_sep (String.concat "/" l)) = l.
Proof.
  intros Hall. destruct l as [|x l]; [reflexivity |].
  rewrite split_sep_concat; [| congruence | by apply Forall_plain_of].
  by apply filter_kept_id.
Qed.

Lemma Path_wf p : wf_path (Path p).
Proof.
  unfold Path, splitroot.
  assert (Hparts : forall rel,
    Forall (fun x => kept x /\ plain x) (filter kept (split_sep rel))).
  { intros rel. apply list.Forall_forall. intros x Hx.
    apply list_elem_of_filter in Hx as [Hk Hx].
    split; [exact Hk |].
    pose proof (split_sep_plain rel) as Hall.
    rewrite list.Forall_forall in Hall. by apply Hall. }
  repeat case_match; simplify_eq; split; simpl; auto.
Qed.

Lemma truediv_wf p key : wf_path p -> wf_path (truediv p key).
Proof.
  intros [Hr Ht]. unfold truediv.
  destruct (is_absolute (Path key)); [apply Path_wf |].
  split; simpl; [exact Hr |].
  apply Forall_app. split; [exact Ht | apply Path_wf].
Qed.

Lemma splitroot_relative s :
  starts_with_sep s = false -> splitroot s = ("", s).
Proof. intros H. unfold splitroot. by rewrite H. Qed.

Lemma splitroot_one_sep s :
  starts_with_sep s = false -> splitroot (String "/" s) = ("/", s).
Proof. intros H. unfold splitroot. simpl. by rewrite H. Qed.

Lemma splitroot_two_sep s :
  starts_with_sep s = false ->
  splitroot (String "/" (String "/" s)) = ("//", s).
Proof. intros H. unfold splitroot. simpl. by rewrite H. Qed.

(** Round trip: [Path (str p) = p] for every parsed path. *)
Lemma Path_str p : wf_path p -> Path (str p) = p.
Proof.
  destruct p as [r t]. intros [Hr Ht]; simpl in *.
  pose proof (concat_no_leading_sep t Ht) as Hs.
  pose proof (components_concat t Ht) as Hc.
  destruct Hr as [-> | [-> | ->]].
  - destruct t as [|x t']; [reflexivity |].
    unfold Path.
    change (str (mkPath "" (x :: t'))) with (String.concat "/" (x :: t')).
    rewrite (splitroot_relative _ Hs). by rewrite Hc.
  - unfold Path.
    change (str (mkPath "/" t)) with (String "/" (String.concat "/" t)).
    rewrite (splitroot_one_sep _ Hs). by rewrite Hc.
  - unfold Path.
    change (str (mkPath "//" t))
      with (String "/" (String "/" (String.concat "/" t))).
    rewrite (splitroot_two_sep _ Hs). by rewrite Hc.
Qed.

End PathlibFacts.


(* ===================================================================== *)
(** ** Facts about path resolution *)
(* ===================================================================== *)

Module FileSystemFacts.
Import Pathlib FileSystem PathlibFacts.

Lemma resolve_from_app fs c1 : forall loc c2,
  resolve_from fs loc (c1 ++ c2) =
  match resolve_from fs loc c1 with
  | Some l => resolve_from fs l c2
  | None => None
  end.
Proof.
  induction c1 as [|c c1 IH]; intros loc c2; simpl; [reflexivity |].
  destruct (is_dir_at fs loc); [apply IH | reflexivity].
Qed.

(** Without a parent-directory component, resolution only goes down. *)
Lemma resolve_from_descends fs cs : forall loc l,
  ".." ∉ cs -> resolve_from fs loc cs = Some l -> l = loc ++ cs.
Proof.
  induction cs as [|c cs IH]; intros loc l Hno; simpl.
  - intros [= <-]. by rewrite app_nil_r.
  - destruct (is_dir_at fs loc); [| discriminate].
    intros Hres. apply IH in Hres; [| set_solver].
    subst l. unfold step. rewrite decide_False by set_solver.
    by rewrite <- app_assoc.
Qed.

Lemma is_file_exists fs cwd p :
  is_file fs cwd p = true -> path_exists fs cwd p = true.
Proof. unfold is_file, path_exists. by destruct (stat fs cwd p) as [[]|]. Qed.

Lemma is_file_locate fs cwd p :
  is_file fs cwd p = true -> exists l, locate fs cwd p = Some l.
Proof.
  unfold is_file, stat. destruct (locate fs cwd p); [eauto | discriminate].
Qed.

(** A relative key keeps the anchor of the directory and appends its own
    components. *)
Lemma truediv_relative p key :
  is_absolute (Path key) = false ->
  truediv p key = mkPath (root p) (tail p ++ tail (Path key)).
Proof. intros H. unfold truediv. by rewrite H. Qed.

Lemma locate_truediv_relative fs cwd p key :
  is_absolute (Path key) = false ->
  locate fs cwd (truediv p key) =
  match locate fs cwd p with
  | Some l => resolve_from fs l (tail (Path key))
  | None => None
  end.
Proof.
  intros H. rewrite truediv_relative by exact H.
  unfold locate, is_absolute. simpl. apply resolve_from_app.
Qed.

End FileSystemFacts.

(* ===================================================================== *)
(** ** The file lookup *)
(* ===================================================================== *)

Module LookupFacts.
Import Pathlib FileSystem PathlibFacts FileSystemFacts Server Examples.

Lemma find_file_first_regular fs cwd file_path allowed_dirs :
  find_file_in_allowed_dirs fs cwd file_path allowed_dirs =
  first_regular fs cwd file_path allowed_dirs.
Proof.
  unfold first_regular.
  induction allowed_dirs as [|d rest IH]; simpl; [reflexivity |].
  fold (candidate file_path d). fold (regular fs cwd file_path d).
  destruct (regular fs cwd file_path d) eqn:Hd.
  - rewrite decide_True by reflexivity. reflexivity.
  - rewrite decide_False by discriminate.
    rewrite IH. by destruct (list_find _ rest) as [[? ?]|].
Qed.

Lemma find_file_Some fs cwd file_path allowed_dirs p :
  find_file_in_allowed_dirs fs cwd file_path allowed_dirs = Some p <->
  exists i d,
    allowed_dirs !! i = Some d /\
    regular fs cwd file_path d = true /\
    p = str (candidate file_path d) /\
    forall j d', allowed_dirs !! j = Some d' -> j < i ->
                 regular fs cwd file_path d' = false.
Proof.
  rewrite find_file_first_regular. unfold first_regular.
  destruct (list_find _ allowed_dirs) as [[i d]|] eqn:Hfind.
  - apply list_find_Some in Hfind as (Hi & Hd & Hbefore).
    split.
    + intros [= <-]. exists i, d. repeat split; try done.
      intros j d' Hj Hlt. specialize (Hbefore j d' Hj Hlt).
      by destruct (regular fs cwd file_path d').
    + intros (i' & d' & Hi' & Hd' & -> & Hbefore').
      destruct (Nat.lt_trichotomy i i') as [Hlt | [-> | Hlt]].
      * rewrite (Hbefore' i d Hi Hlt) in Hd. discriminate.
      * by simplify_eq.
      * specialize (Hbefore i' d' Hi' Hlt). congruence.
  - split; [discriminate |].
    intros (i & d & Hi & Hd & _).
    apply list_find_None in Hfind. rewrite list.Forall_forall in Hfind.
    exfalso. apply (Hfind d); [by eapply list_elem_of_lookup_2 | exact Hd].
Qed.

Lemma find_file_None fs cwd file_path allowed_dirs :
  find_file_in_allowed_dirs fs cwd file_path allowed_dirs = None <->
  forall d, d ∈ allowed_dirs -> regular fs cwd file_path d = false.
Proof.
  rewrite find_file_first_regular. unfold first_regular.
  destruct (list_find _ allowed_dirs) as [[i d]|] eqn:Hfind.
  - apply list_find_Some in Hfind as (Hi & Hd & _).
    split; [discriminate |]. intros Hall.
    rewrite Hall in Hd; [discriminate | by eapply list_elem_of_lookup_2].
  - apply list_find_None in Hfind. rewrite list.Forall_forall in Hfind.
    split; [| reflexivity]. intros _ d Hd. specialize (Hfind d Hd).
    by destruct (regular fs cwd file_path d).
Qed.

(** Under ["/a"]: the printed path of a relative key joined to ["/a"]. *)
Lemma candidate_under_a file_path :
  is_absolute (Path file_path) = false ->
  exists rest, str (candidate file_path "/a") = "/a" +:+ rest.
Proof.
  intros Hrel. unfold candidate. rewrite truediv_relative by exact Hrel.
  change (Path "/a") with (mkPath "/" ["a"]). simpl.
  destruct (tail (Path file_path)) as [|x t].
  - by exists "".
  - exists (String "/" (String.concat "/" (x :: t))). reflexivity.
Qed.

(** C7.  The lookup scans the directories in the order of the list and
    returns the joined path of the first directory in which the path is an
    existing regular file; it returns [None] exactly when no directory has
    one.  With the directories ["/a"] and ["/b"] and the file in both, the
    result is the path joined to ["/a"], which for a relative file path is
    printed under ["/a"]. *)
Theorem find_file_in_allowed_dirs_first_match fs cwd file_path :
  (forall allowed_dirs,
     find_file_in_allowed_dirs fs cwd file_path allowed_dirs =
     first_regular fs cwd file_path allowed_dirs) /\
  (forall allowed_dirs p,
     find_file_in_allowed_dirs fs cwd file_path allowed_dirs = Some p <->
     exists i d,
       allowed_dirs !! i = Some d /\
       regular fs cwd file_path d = true /\
       p = str (truediv (Path d) file_path) /\
       forall j d', allowed_dirs !! j = Some d' -> j < i ->
                    regular fs cwd file_path d' = false) /\
  (forall allowed_dirs,
     find_file_in_allowed_dirs fs cwd file_path allowed_dirs = None <->
     forall d, d ∈ allowed_dirs -> regular fs cwd file_path d = false) /\
  (regular fs cwd file_path "/a" = true ->
   regular fs cwd file_path "/b" = true ->
   find_file_in_allowed_dirs fs cwd file_path ["/a"; "/b"] =
     Some (str (truediv (Path "/a") file_path)) /\
   (is_absolute (Path file_path) = false ->
    exists rest, str (truediv (Path "/a") file_path) = "/a" +:+ rest)).
Proof.
  split; [intros; apply find_file_first_regular |].
  split; [intros; apply find_file_Some |].
  split; [intros; apply find_file_None |].
  intros Ha _. split.
  - apply find_file_Some. exists 0, "/a". repeat split; try done.
    intros j d' _ Hj. lia.
  - apply candidate_under_a.
Qed.

Lemma find_file_in_allowed_dirs_first_match_witness :
  regular fs_ab [] "x.csv" "/a" = true /\
  regular fs_ab [] "x.csv" "/b" = true /\
  find_file_in_allowed_dirs fs_ab [] "x.csv" ["/a"; "/b"] = Some "/a/x.csv".
Proof.
  split; [reflexivity |]. split; [reflexivity |].
  apply (proj1 (proj2 (proj2 (proj2
    (find_file_in_allowed_dirs_first_match fs_ab [] "x.csv")))
    eq_refl eq_refl)).
Defined.

(** C2: the failing input.  With the allowed directory ["/a"] and the
    relative file path ["../etc/passwd"], the lookup returns
    ["/a/../etc/passwd"]: the file system resolves it to [/etc/passwd],
    which is not inside ["/a"].  The lookup joins the path to the directory
    and tests the result, without checking that it stays in the
    directory. *)
Theorem find_file_in_allowed_dirs_parent_escape :
  is_absolute (Path "../etc/passwd") = false /\
  find_file_in_allowed_dirs fs_ab [] "../etc/passwd" ["/a"]
    = Some "/a/../etc/passwd" /\
  locate fs_ab [] (Path "/a") = Some ["a"] /\
  locate fs_ab [] (Path "/a/../etc/passwd") = Some ["etc"; "passwd"] /\
  ~ inside fs_ab [] "/a/../etc/passwd" "/a".
Proof.
  split; [reflexivity |]. split; [reflexivity |].
  split; [reflexivity |]. split; [reflexivity |].
  intros Hin. vm_compute in Hin. destruct Hin as [k Hk]. discriminate.
Qed.

(** The lookup does not keep to the allowed directories for every relative
    path: a parent-directory component is joined to the directory and
    resolved by the file system, so the file returned can lie outside
    every allowed directory. *)
Lemma find_file_in_allowed_dirs_escapes :
  ~ (forall fs cwd file_path allowed_dirs p,
       is_absolute (Path file_path) = false ->
       find_file_in_allowed_dirs fs cwd file_path allowed_dirs = Some p ->
       exists d, d ∈ allowed_dirs /\ inside fs cwd p d).
Proof.
  intros H.
  destruct (H fs_ab [] "../etc/passwd" ["/a"] "/a/../etc/passwd"
              eq_refl eq_refl) as (d & Hd & Hin).
  apply list_elem_of_singleton in Hd as ->.
  vm_compute in Hin. destruct Hin as [k Hk]. discriminate.
Qed.

(** X23.  What the lookup does keep to: for a relative file path without
    a parent-directory component, in a file system without symbolic links,
    a path returned by the lookup denotes a file inside one of the allowed
    directories: the directory resolves to a location, and the file is
    found by descending from there along the components of the file
    path. *)
Theorem find_file_in_allowed_dirs_confined fs cwd file_path allowed_dirs p :
  is_absolute (Path file_path) = false ->
  ".." ∉ tail (Path file_path) ->
  find_file_in_allowed_dirs fs cwd file_path allowed_dirs = Some p ->
  exists d ld,
    d ∈ allowed_dirs /\
    locate fs cwd (Path d) = Some ld /\
    locate fs cwd (Path p) = Some (ld ++ tail (Path file_path)) /\
    inside fs cwd p d.
Proof.
  intros Hrel Hno Hfind.
  apply find_file_Some in Hfind as (i & d & Hi & Hreg & -> & _).
  unfold regular in Hreg. apply andb_true_iff in Hreg as [_ Hfile].
  apply is_file_locate in Hfile as [lp Hlp].
  unfold candidate in *.
  assert (Hback : Path (str (truediv (Path d) file_path))
                  = truediv (Path d) file_path).
  { apply Path_str, truediv_wf, Path_wf. }
  pose proof Hlp as Hdown.
  rewrite locate_truediv_relative in Hdown by exact Hrel.
  destruct (locate fs cwd (Path d)) as [ld|] eqn:Hld; [| discriminate].
  apply resolve_from_descends in Hdown; [| exact Hno]. subst lp.
  exists d, ld. split; [by eapply list_elem_of_lookup_2 |].
  split; [exact Hld |].
  rewrite <- Hback in Hlp.
  split; [exact Hlp |].
  unfold inside. rewrite Hlp, Hld. by apply prefix_app_r.
Qed.

Lemma find_file_in_allowed_dirs_confined_witness :
  exists d ld,
    d ∈ ["/a"; "/b"] /\
    locate fs_ab [] (Path d) = Some ld /\
    locate fs_ab [] (Path "/a/x.csv") = Some (ld ++ tail (Path "x.csv")) /\
    inside fs_ab [] "/a/x.csv" d.
Proof.
  apply (find_file_in_allowed_dirs_confined fs_ab [] "x.csv" ["/a"; "/b"]).
  - reflexivity.
  - apply not_elem_of_cons. split; [discriminate | apply not_elem_of_nil].
  - reflexivity.
Defined.

End LookupFacts.


(* ===================================================================== *)
(** ** The capability resolver *)
(* ===================================================================== *)

Module ResolverFacts.
Import Py Interaction Server Examples.

(** Membership of a request in an explicit log. *)
Ltac absurd_member H :=
  repeat (apply elem_of_cons in H as [H | H]; [discriminate H |]);
  by apply elem_of_nil in H.

(** With the global set, no request is issued. *)
Lemma exec_cached (h : handler answer) ds :
  exec h get_directories (Some ds) = (Ok ds, Some ds, []).
Proof. reflexivity. Qed.

(** With the global unset, the run follows the answers of the client. *)
Lemma exec_uncached (h : handler answer) :
  exec h get_directories None =
  match h CheckClientCapability [] with
  | Err e => (Err e, None, [CheckClientCapability])
  | Ok true =>
      match h ListRoots [CheckClientCapability] with
      | Err e => (Err e, None, [CheckClientCapability; ListRoots])
      | Ok roots =>
          match omap uri_path roots with
          | [] => (Err (ValueError no_roots_from_client), None,
                   [CheckClientCapability; ListRoots])
          | dirs => (Ok dirs, Some dirs, [CheckClientCapability; ListRoots])
          end
      end
  | Ok false =>
      match h ParseArgs [CheckClientCapability] with
      | Err e => (Err e, None, [CheckClientCapability; ParseArgs])
      | Ok args =>
          match root_directory args with
          | Some (first :: _) =>
              (Ok [first], Some [first], [CheckClientCapability; ParseArgs])
          | Some [] => (Err IndexError, None, [CheckClientCapability; ParseArgs])
          | None => (Err (ValueError no_roots_at_all), None,
                     [CheckClientCapability; ParseArgs])
          end
      end
  end.
Proof.
  unfold exec, get_directories, bind, get, await, put, ret, raise. simpl.
  destruct (h CheckClientCapability []) as [[|]|e]; simpl; [| | reflexivity].
  - destruct (h ListRoots [CheckClientCapability]) as [roots|e]; simpl;
      [| reflexivity].
    by destruct (omap uri_path roots).
  - destruct (h ParseArgs [CheckClientCapability]) as [args|e]; simpl;
      [| reflexivity].
    by destruct (root_directory args) as [[|first rest]|].
Qed.

(** A successful resolution returns a non-empty list and stores exactly
    that list. *)
Lemma exec_ok_stores (h : handler answer) s ds s' log :
  store_ok s ->
  exec h get_directories s = (Ok ds, s', log) ->
  ds <> [] /\ s' = Some ds.
Proof.
  intros Hs. destruct s as [cached|].
  - rewrite exec_cached. intros [= <- <- <-]. by split.
  - rewrite exec_uncached.
    repeat case_match; intros [= <- <- <-]; by split.
Qed.

Lemma exec_ok_caches (h : handler answer) s ds s' log :
  exec h get_directories s = (Ok ds, s', log) -> s' = Some ds.
Proof.
  destruct s as [cached|].
  - rewrite exec_cached. by intros [= <- <- <-].
  - rewrite exec_uncached. repeat case_match; by intros [= <- <- <-].
Qed.

(** A failed resolution leaves the global as it was. *)
Lemma exec_err_keeps (h : handler answer) s e s' log :
  exec h get_directories s = (Err e, s', log) -> s' = s.
Proof.
  destruct s as [cached|].
  - rewrite exec_cached. discriminate.
  - rewrite exec_uncached. repeat case_match; by intros [= <- <- <-].
Qed.

Lemma exec_preserves_store_ok (h : handler answer) s r s' log :
  store_ok s -> exec h get_directories s = (r, s', log) -> store_ok s'.
Proof.
  intros Hs Hrun. destruct r as [ds|e].
  - destruct (exec_ok_stores h s ds s' log Hs Hrun) as [Hne ->]. exact Hne.
  - by rewrite (exec_err_keeps h s e s' log Hrun).
Qed.

Lemma reachable_store_ok s : reachable s -> store_ok s.
Proof.
  induction 1 as [|h s r s' log _ IH Hrun]; [exact I |].
  by eapply exec_preserves_store_ok.
Qed.

Lemma session_run_cached hs ds :
  session_run hs (Some ds) = (map (fun _ => (Ok ds, [])) hs, Some ds).
Proof.
  induction hs as [|h hs IH]; cbn [session_run map]; [reflexivity |].
  rewrite exec_cached, IH. reflexivity.
Qed.

(** C4.  Resolution tries, in this order, the cached value, the live
    negotiation, the static configuration, and fails last.  With the cache
    unset and a client that declares the capability, the outcome is
    decided by the client's root list (returned when it holds a path) and
    the command line is never read; the command line is read only when the
    cache is unset and the client does not declare the capability. *)
Theorem get_directories_priority (h : handler answer) s r s' log :
  exec h get_directories s = (r, s', log) ->
  (forall ds, s = Some ds -> r = Ok ds /\ log = []) /\
  (s = None -> h CheckClientCapability [] = Ok true ->
     Forall (fun c => is_parse_args c = false) log /\
     forall roots,
       h ListRoots [CheckClientCapability] = Ok roots ->
       omap uri_path roots <> [] ->
       r = Ok (omap uri_path roots) /\
       log = [CheckClientCapability; ListRoots]) /\
  (ParseArgs ∈ log ->
     s = None /\ h CheckClientCapability [] = Ok false) /\
  (s = None -> h CheckClientCapability [] = Ok false ->
     forall args,
       h ParseArgs [CheckClientCapability] = Ok args ->
       log = [CheckClientCapability; ParseArgs] /\
       (forall d rest, root_directory args = Some (d :: rest) -> r = Ok [d]) /\
       (root_directory args = None -> r = Err (ValueError no_roots_at_all))).
Proof.
  intros Hrun. destruct s as [cached|].
  - rewrite exec_cached in Hrun. injection Hrun as <- <- <-.
    split; [by intros ds [= <-] |].
    split; [discriminate |].
    split; [| discriminate].
    intros Hin. absurd_member Hin.
  - rewrite exec_uncached in Hrun.
    split; [discriminate |].
    destruct (h CheckClientCapability []) as [[|]|e] eqn:Hcap.
    + split; [| split; [| discriminate]].
      * intros _ _. split.
        { repeat case_match; injection Hrun as <- <- <-;
            repeat constructor. }
        intros roots Hroots Hne. rewrite Hroots in Hrun.
        destruct (omap uri_path roots) as [|d ds]; [congruence |].
        by injection Hrun as <- <- <-.
      * intros Hin. exfalso.
        repeat case_match; injection Hrun as <- <- <-;
          absurd_member Hin.
    + split; [discriminate |].
      split; [by intros _ |].
      intros _ _ args Hargs. rewrite Hargs in Hrun.
      destruct (root_directory args) as [[|first rest]|];
        injection Hrun as <- <- <-.
      * split; [reflexivity |]. split; [discriminate | discriminate].
      * split; [reflexivity |]. split; [by intros d rest' [= <- <-] | discriminate].
      * split; [reflexivity |]. split; [discriminate | reflexivity].
    + injection Hrun as <- <- <-.
      split; [discriminate |].
      split; [intros Hin; exfalso; absurd_member Hin | discriminate].
Qed.

Lemma get_directories_priority_witness :
  exec (server_handler true [root_tempdir] args_static) get_directories None
    = (Ok ["/home/miky/mcp-project/tempdir"],
       Some ["/home/miky/mcp-project/tempdir"],
       [CheckClientCapability; ListRoots]) /\
  Forall (fun c => is_parse_args c = false)
    [CheckClientCapability; ListRoots] /\
  ParseArgs ∉ [CheckClientCapability; ListRoots].
Proof.
  pose proof (get_directories_priority
                (server_handler true [root_tempdir] args_static)
                None (Ok ["/home/miky/mcp-project/tempdir"])
                (Some ["/home/miky/mcp-project/tempdir"])
                [CheckClientCapability; ListRoots] eq_refl)
    as (_ & Hlive & Hstatic & _).
  split; [reflexivity |].
  split; [exact (proj1 (Hlive eq_refl eq_refl)) |].
  intros Hin. destruct (Hstatic Hin) as [_ Hcap]. discriminate Hcap.
Defined.

(** C5.  A client that declares the capability and whose root list yields
    no directory path makes resolution raise [ValueError] and leave the
    cache unset; and in every store reachable from the initial one, a
    resolution that succeeds returns a non-empty list, which is the list
    the cache then holds. *)
Theorem get_directories_nonempty :
  (forall (h : handler answer) roots,
     h CheckClientCapability [] = Ok true ->
     h ListRoots [CheckClientCapability] = Ok roots ->
     omap uri_path roots = [] ->
     exec h get_directories None =
       (Err (ValueError no_roots_from_client), None,
        [CheckClientCapability; ListRoots]) /\
     is_value_error (ValueError no_roots_from_client) = true) /\
  (forall (h : handler answer) s ds s' log,
     reachable s ->
     exec h get_directories s = (Ok ds, s', log) ->
     ds <> [] /\ s' = Some ds).
Proof.
  split.
  - intros h roots Hcap Hroots Hnone.
    rewrite exec_uncached, Hcap, Hroots, Hnone. by split.
  - intros h s ds s' log Hs Hrun.
    eapply exec_ok_stores; [by apply reachable_store_ok | exact Hrun].
Qed.

Lemma get_directories_nonempty_witness :
  exec (server_handler true [mkRoot None (Some "unnamed")] args_static)
       get_directories None =
    (Err (ValueError no_roots_from_client), None,
     [CheckClientCapability; ListRoots]) /\
  is_value_error (ValueError no_roots_from_client) = true.
Proof.
  apply (proj1 get_directories_nonempty
           (server_handler true [mkRoot None (Some "unnamed")] args_static)
           [mkRoot None (Some "unnamed")]);
    reflexivity.
Defined.

(** C6.  Once a call of [get_directories] has succeeded, the cache holds
    the list it returned, and every later call of the session, whatever
    the collaborators answer, returns that same list, issues no request
    (no capability check, no root listing, no reading of the command line)
    and leaves the cache as it is. *)
Theorem get_directories_idempotent (h : handler answer) s ds s' log :
  exec h get_directories s = (Ok ds, s', log) ->
  s' = Some ds /\
  (forall h', exec h' get_directories s' = (Ok ds, s', [])) /\
  (forall hs, session_run hs s' = (map (fun _ => (Ok ds, [])) hs, s')).
Proof.
  intros Hrun. rewrite (exec_ok_caches h s ds s' log Hrun).
  split; [reflexivity |].
  split; [intros h'; apply exec_cached | intros hs; apply session_run_cached].
Qed.

Lemma get_directories_idempotent_witness :
  exec (server_handler false [] args_static) get_directories None
    = (Ok ["/srv/data"], Some ["/srv/data"],
       [CheckClientCapability; ParseArgs]) /\
  (forall h', exec h' get_directories (Some ["/srv/data"])
              = (Ok ["/srv/data"], Some ["/srv/data"], [])) /\
  (forall hs, session_run hs (Some ["/srv/data"])
              = (map (fun _ => (Ok ["/srv/data"], [])) hs, Some ["/srv/data"])).
Proof.
  split; [reflexivity |].
  apply (get_directories_idempotent
           (server_handler false [] args_static) None ["/srv/data"]
           (Some ["/srv/data"]) [CheckClientCapability; ParseArgs] eq_refl).
Defined.

End ResolverFacts.


(* ===================================================================== *)
(** ** Running programs *)
(* ===================================================================== *)

Module RunFacts.
Import Py Interaction.

Section Run.
Context {E : Type} {answer : E -> Type} (h : handler answer).

Lemma run_pbind {R Q} (p : prog answer R) (f : R -> prog answer Q) :
  forall log,
    run h (pbind p f) log = run h (f (run h p log).1) (run h p log).2.
Proof.
  induction p as [r | e k IH]; intros log; simpl; [reflexivity |].
  apply IH.
Qed.

Lemma run_bind {S A B} (m : M answer S A) (f : A -> M answer S B) s log :
  run h (bind m f s) log =
  match run h (m s) log with
  | (Ok a, s', log') => run h (f a s') log'
  | (Err e, s', log') => (Err e, s', log')
  end.
Proof.
  unfold bind. rewrite run_pbind.
  destruct (run h (m s) log) as [[[a | e] s'] log']; reflexivity.
Qed.

Lemma run_await {S} (e : E) (s : S) log :
  run h (await e s) log = (h e log, s, log ++ [e]).
Proof. reflexivity. Qed.

Lemma run_lift {S A} (r : result A) (s : S) log :
  run h (lift r s) log = (r, s, log).
Proof. reflexivity. Qed.

(** The log only grows. *)
Lemma run_log_extends {R} (p : prog answer R) :
  forall log, exists more, (run h p log).2 = log ++ more.
Proof.
  induction p as [r | e k IH]; intros log; simpl.
  - exists []. by rewrite app_nil_r.
  - destruct (IH (h e log) (log ++ [e])) as [more ->].
    exists (e :: more). by rewrite <- app_assoc.
Qed.

End Run.
End RunFacts.

(* ===================================================================== *)
(** ** The tool catalog adapter *)
(* ===================================================================== *)

Module AdapterFacts.
Import Py Client Examples.

Lemma narrow_properties_typed props :
  Forall typed props.*2 ->
  narrow_properties props = Ok (map narrowed props).
Proof.
  induction props as [|[k v] props IH]; intros Hall; [reflexivity |].
  inversion Hall as [|? ? Hv Hrest]; subst.
  cbn [narrow_properties map]. rewrite (IH Hrest).
  destruct v as [| | | | |d]; try contradiction.
  destruct Hv as [ty Hty]. unfold narrowed, type_of. simpl.
  by rewrite Hty.
Qed.

(** A property without a [type] key makes the adapter raise. *)
Lemma narrow_properties_untyped props out :
  narrow_properties props = Ok out -> Forall typed props.*2.
Proof.
  revert out. induction props as [|[k v] props IH]; intros out; simpl.
  - constructor.
  - destruct (getitem v "type") as [ty|e] eqn:Hty; [| discriminate].
    destruct (narrow_properties props) as [out'|e]; [| discriminate].
    intros _. constructor; [| by eapply IH].
    destruct v as [| | | | |d]; try discriminate. simpl in *.
    destruct (dict_get d "type"); [eauto | discriminate].
Qed.

Lemma keys_narrowed props : keys (map narrowed props) = keys props.
Proof.
  unfold keys. induction props as [|[k v] props IH]; [reflexivity |].
  cbn. f_equal. exact IH.
Qed.

(** C8, as stated, fails twice: a descriptor whose [required] list names
    a property missing from [properties] is converted with that name
    required and not exposed, and a descriptor with a property whose schema
    has no [type] key is not converted at all ([KeyError]). *)
Lemma convert_tools_to_ollama_format_not_subset :
  (exists out req,
     convert_tools_to_ollama_format tool_dangling = Ok out /\
     out_parameter out "required" = Ok req /\
     required_names req = ["file_path"] /\
     exposed out = [] /\
     ~ required_names req ⊆ exposed out) /\
  convert_tools_to_ollama_format tool_untyped = Err (KeyError "type").
Proof.
  split; [| reflexivity].
  eexists _, _. repeat split.
  intros Hsub. specialize (Hsub "file_path").
  eapply elem_of_nil, Hsub. by left.
Qed.

(** C8, amended.  For a descriptor whose schema has a [required] entry and
    a [properties] mapping in which every property schema is itself a
    mapping with a [type] key, the adapter's output carries the name and
    the description, keeps the [required] entry as it is, and maps every
    property name, in order, to a schema holding only that property's
    type; it exposes exactly the property names of the input, so the
    required names are among the exposed names exactly when they are among
    the input's property names. *)
Theorem convert_tools_to_ollama_format_narrows tool req props :
  dict_get (inputSchema tool) "required" = Some req ->
  dict_get (inputSchema tool) "properties" = Some (JDict props) ->
  Forall typed props.*2 ->
  exists out,
    convert_tools_to_ollama_format tool = Ok out /\
    getitem out "type" = Ok (JStr "function") /\
    out_field out "name" = Ok (JStr (name tool)) /\
    out_field out "description" = Ok (opt_str (description tool)) /\
    out_parameter out "required" = Ok req /\
    out_parameter out "properties" = Ok (JDict (map narrowed props)) /\
    exposed out = keys props /\
    (required_names req ⊆ exposed out <-> required_names req ⊆ keys props).
Proof.
  intros Hreq Hprops Htyped.
  unfold convert_tools_to_ollama_format. simpl.
  rewrite Hreq, Hprops. simpl.
  rewrite (narrow_properties_typed props Htyped).
  eexists. split; [reflexivity |].
  assert (Hexp : exposed
            (JDict
               [("type", JStr "function");
                ("function", JDict
                   [("name", JStr (name tool));
                    ("description", opt_str (description tool));
                    ("parameters", JDict
                       [("required", req);
                        ("properties", JDict (map narrowed props))])])])
          = keys props).
  { unfold exposed, out_parameter, out_field, out_function. simpl.
    apply keys_narrowed. }
  repeat split; try reflexivity; try exact Hexp; rewrite Hexp; tauto.
Qed.

Lemma convert_tools_to_ollama_format_narrows_witness :
  exists out,
    convert_tools_to_ollama_format tool_rows = Ok out /\
    getitem out "type" = Ok (JStr "function") /\
    out_field out "name" = Ok (JStr "count_csv_rows") /\
    out_field out "description"
      = Ok (JStr "Count the number of rows in a CSV file") /\
    out_parameter out "required" = Ok (JList [JStr "file_path"]) /\
    out_parameter out "properties"
      = Ok (JDict [("file_path", JDict [("type", JStr "string")])]) /\
    exposed out = ["file_path"] /\
    (required_names (JList [JStr "file_path"]) ⊆ exposed out <->
     required_names (JList [JStr "file_path"]) ⊆ ["file_path"]).
Proof.
  apply (convert_tools_to_ollama_format_narrows tool_rows
           (JList [JStr "file_path"])
           [("file_path", JDict [("title", JStr "File Path"); ("type", JStr "string")])]).
  - reflexivity.
  - reflexivity.
  - repeat constructor. simpl. eauto.
Defined.

End AdapterFacts.


(* ===================================================================== *)
(** ** The query dispatch loop *)
(* ===================================================================== *)

Module DispatchFacts.
Import Py Interaction Client RunFacts Examples.

Section Dispatch.
Context (OLLAMA_MODEL : string) (py_str : json -> string).
Context (h : handler answer).

#[local] Abbreviation process_query := (Client.process_query OLLAMA_MODEL py_str).
#[local] Abbreviation call_tools := (Client.call_tools py_str).
#[local] Abbreviation tool_message := (Client.tool_message py_str).
#[local] Abbreviation marker_of := (Client.marker_of py_str).
#[local] Abbreviation after_loop := (Client.after_loop py_str).
#[local] Abbreviation first_chat := (Client.first_chat OLLAMA_MODEL).
#[local] Abbreviation follow_up := (Client.follow_up OLLAMA_MODEL).

Lemma run_call_tools calls : forall vars log answers,
  answered h log calls answers ->
  run h (call_tools calls vars tt) log =
    (Ok (after_loop vars calls answers), tt, log ++ map request_of calls).
Proof.
  induction calls as [|c calls IH]; intros vars log answers Hans.
  - destruct answers; [| contradiction].
    destruct vars. unfold Client.after_loop. simpl. by rewrite !app_nil_r.
  - destruct answers as [|a answers]; [contradiction |].
    destruct Hans as [Ha Hrest].
    cbn [Client.call_tools]. rewrite run_bind, run_await.
    fold (request_of c). rewrite Ha.
    rewrite (IH _ _ answers Hrest).
    unfold Client.after_loop. cbn [lv_tool_name lv_result lv_final_text map].
    rewrite !last_cons, <- !app_assoc. simpl.
    destruct (last calls), (last answers); reflexivity.
Qed.

(** The run up to the first answer of the chat endpoint. *)
Lemma exec_process_query query tools ollama_tools response :
  h ListTools [] = Ok tools ->
  convert_all tools = Ok ollama_tools ->
  h (first_chat query ollama_tools) [ListTools] = Ok response ->
  exec h (process_query true query) tt =
  let log := [ListTools; first_chat query ollama_tools] in
  let message := message response in
  if truthy_str (content message) then
    (join nl [content message], tt, log)
  else if truthy_seq (tool_calls message) then
    match run h (call_tools (default [] (tool_calls message))
                   (mkLoop "" None []) tt) log with
    | (Err e, s, log') => (Err e, s, log')
    | (Ok vars, s, log') =>
        match lv_result vars with
        | None => (Err UnboundLocalError, s, log')
        | Some result =>
            match tool_message result (lv_tool_name vars) with
            | Err e => (Err e, s, log')
            | Ok tool_msg =>
                match h (follow_up query tool_msg) log' with
                | Err e => (Err e, s, log' ++ [follow_up query tool_msg])
                | Ok response2 =>
                    (join nl (lv_final_text vars
                              ++ [content (Client.message response2)]),
                     s, log' ++ [follow_up query tool_msg])
                end
            end
        end
    end
  else (Ok "", tt, log).
Proof.
  intros Htools Hconv Hchat.
  unfold exec, Client.process_query.
  rewrite run_bind. cbn [ret run].
  rewrite run_bind, run_await. cbn [app]. rewrite Htools.
  rewrite run_bind, run_lift, Hconv.
  rewrite run_bind, run_await. cbn [app].
  fold (first_chat query ollama_tools). rewrite Hchat.
  cbv zeta.
  destruct (truthy_str (content (message response))) eqn:Htext.
  { reflexivity. }
  destruct (truthy_seq (tool_calls (message response))) eqn:Hcalls.
  2: { reflexivity. }
  rewrite run_bind.
  destruct (run h (call_tools _ _ tt) _) as [[[vars | e] s] log'];
    [| reflexivity].
  rewrite run_bind, run_lift.
  destruct (lv_result vars) as [result|]; [| reflexivity].
  rewrite run_bind, run_lift.
  destruct (tool_message result (lv_tool_name vars)) as [tool_msg | e];
    [| reflexivity].
  rewrite run_bind, run_await. cbn [app].
  fold (follow_up query tool_msg).
  destruct (h (follow_up query tool_msg) log') as [response2 | e];
    reflexivity.
Qed.

Lemma invoked_app log1 log2 : invoked (log1 ++ log2) = invoked log1 ++ invoked log2.
Proof. unfold invoked. apply omap_app. Qed.

Lemma invoked_requests calls :
  invoked (map request_of calls) = map call_pair calls.
Proof.
  induction calls as [|c calls IH]; [reflexivity |].
  cbn. f_equal. exact IH.
Qed.

Lemma join_strings sep (l : list string) :
  join sep (map Some l) = Ok (String.concat sep l).
Proof.
  unfold join.
  assert (H : all_str (map Some l) = Some l).
  { induction l as [|x l IH]; [reflexivity |]. cbn. by rewrite IH. }
  by rewrite H.
Qed.

(** The tool-role message: the structured payload when there is one, else
    the text of the first content block. *)
Lemma tool_message_structured res tool_name sc v :
  structuredContent res = Some sc ->
  dict_get sc "result" = Some v ->
  tool_message res tool_name = Ok (mkMessage "tool" (py_str v) (Some tool_name)).
Proof. intros Hsc Hv. unfold Client.tool_message. rewrite Hsc. simpl. by rewrite Hv. Qed.

Lemma tool_message_text res tool_name text rest :
  structuredContent res = None ->
  result_content res = TextContent text :: rest ->
  tool_message res tool_name = Ok (mkMessage "tool" text (Some tool_name)).
Proof. intros Hsc Hc. unfold Client.tool_message. by rewrite Hsc, Hc. Qed.

(** [ValueError] is raised exactly when there is no structured payload and
    the first content block exists and is not a text block. *)
Lemma tool_message_value_error res tool_name msg :
  tool_message res tool_name = Err (ValueError msg) <->
  structuredContent res = None /\
  msg = "Unsupported content type from tool" /\
  exists b rest, result_content res = b :: rest /\
                 forall text, b <> TextContent text.
Proof.
  unfold Client.tool_message. split.
  - destruct (structuredContent res) as [sc|].
    + simpl. destruct (dict_get sc "result"); discriminate.
    + destruct (result_content res) as [|[text| | | |] rest];
        try discriminate; intros [= <-];
        (split; [reflexivity |]); (split; [reflexivity |]);
        eexists _, _; (split; [reflexivity | discriminate]).
  - intros (-> & -> & b & rest & -> & Hb).
    destruct b; try reflexivity. by destruct (Hb text).
Qed.

(** C3.  When the model's reply carries text, that text is the answer and
    the run consists of the catalog request and the one chat request: no
    tool is invoked, whether or not the reply also holds tool calls. *)
Theorem process_query_text_wins query tools ollama_tools response text :
  h ListTools [] = Ok tools ->
  convert_all tools = Ok ollama_tools ->
  h (first_chat query ollama_tools) [ListTools] = Ok response ->
  content (message response) = Some text ->
  text <> "" ->
  exists log,
    exec h (process_query true query) tt = (Ok text, tt, log) /\
    log = [ListTools; first_chat query ollama_tools] /\
    invoked log = [] /\
    Forall (fun c => is_call_tool c = false) log.
Proof.
  intros Htools Hconv Hchat Hcontent Hne.
  eexists. split; [| split; [reflexivity | split; [reflexivity |]]].
  - rewrite (exec_process_query query tools ollama_tools response)
      by assumption.
    cbv zeta. rewrite Hcontent.
    destruct text as [|c text]; [congruence |]. reflexivity.
  - repeat constructor.
Qed.

(** C10.  When the model's reply carries neither text nor a tool call, the
    answer is the empty string: the run consists of the catalog request
    and the one chat request, without a tool invocation, a follow-up chat
    request or an exception. *)
Theorem process_query_silent query tools ollama_tools response :
  h ListTools [] = Ok tools ->
  convert_all tools = Ok ollama_tools ->
  h (first_chat query ollama_tools) [ListTools] = Ok response ->
  truthy_str (content (message response)) = false ->
  truthy_seq (tool_calls (message response)) = false ->
  exists log,
    exec h (process_query true query) tt = (Ok "", tt, log) /\
    log = [ListTools; first_chat query ollama_tools] /\
    invoked log = [] /\
    length (filter (fun c => is_chat c = true) log) = 1.
Proof.
  intros Htools Hconv Hchat Htext Hcalls.
  eexists. split; [| split; [reflexivity | split; reflexivity]].
  rewrite (exec_process_query query tools ollama_tools response)
    by assumption.
  cbv zeta. by rewrite Htext, Hcalls.
Qed.

(** C1, amended.  When the model's reply carries no text and a non-empty
    sequence of tool calls, every call of the sequence is executed over
    the session, in the order of the reply; only the result of the last
    call is turned into the tool-role message of the follow-up
    conversation; and the answer is the marker of every call, in order,
    followed by the text of the follow-up reply. *)
Theorem process_query_every_call_executed
    query tools ollama_tools response calls answers
    last_call last_result tool_msg response2 text :
  h ListTools [] = Ok tools ->
  convert_all tools = Ok ollama_tools ->
  h (first_chat query ollama_tools) [ListTools] = Ok response ->
  truthy_str (content (message response)) = false ->
  tool_calls (message response) = Some calls ->
  last calls = Some last_call ->
  answered h [ListTools; first_chat query ollama_tools] calls answers ->
  last answers = Some last_result ->
  tool_message last_result (fn_name (function_ last_call)) = Ok tool_msg ->
  h (follow_up query tool_msg)
    ([ListTools; first_chat query ollama_tools] ++ map request_of calls)
    = Ok response2 ->
  content (message response2) = Some text ->
  exists log,
    exec h (process_query true query) tt
      = (Ok (String.concat nl (map marker_of calls ++ [text])), tt, log) /\
    log = [ListTools; first_chat query ollama_tools]
          ++ map request_of calls ++ [follow_up query tool_msg] /\
    invoked log = map call_pair calls.
Proof.
  intros Htools Hconv Hchat Htext Hcalls Hlast Hans Hres Hmsg Hchat2 Htext2.
  eexists. split; [| split; [reflexivity |]].
  - rewrite (exec_process_query query tools ollama_tools response)
      by assumption.
    cbv zeta. rewrite Htext, Hcalls.
    assert (Hseq : truthy_seq (Some calls) = true).
    { destruct calls; [discriminate Hlast | reflexivity]. }
    rewrite Hseq. cbn [default from_option id].
    rewrite (run_call_tools calls _ _ answers Hans).
    unfold Client.after_loop.
    cbn [lv_result lv_tool_name lv_final_text].
    rewrite Hlast, Hres. cbn [from_option].
    rewrite Hmsg, Hchat2, Htext2, app_nil_l.
    replace (map (fun c => Some (marker_of c)) calls ++ [Some text])
      with (map Some (map marker_of calls ++ [text])).
    + rewrite join_strings. by rewrite <- app_assoc.
    + rewrite map_app, map_map. reflexivity.
  - rewrite !invoked_app, invoked_requests. cbn. by rewrite app_nil_r.
Qed.

End Dispatch.

Lemma process_query_text_wins_witness :
  exists log,
    exec (client_handler [tool_rows] text_and_call final_answer structured_42)
         (process_query model show true "how many rows in a.csv") tt
      = (Ok "hello", tt, log) /\
    log = [ListTools;
           first_chat model "how many rows in a.csv"
             [JDict
                [("type", JStr "function");
                 ("function", JDict
                    [("name", JStr "count_csv_rows");
                     ("description", JStr "Count the number of rows in a CSV file");
                     ("parameters", JDict
                        [("required", JList [JStr "file_path"]);
                         ("properties", JDict
                            [("file_path", JDict [("type", JStr "string")])])])])]]] /\
    invoked log = [] /\
    Forall (fun c => is_call_tool c = false) log.
Proof.
  apply (process_query_text_wins model show
           (client_handler [tool_rows] text_and_call final_answer structured_42)
           "how many rows in a.csv" [tool_rows] _ text_and_call "hello");
    try reflexivity.
  discriminate.
Defined.

Lemma process_query_silent_witness :
  exists log,
    exec (client_handler [] silent final_answer structured_42)
         (process_query model show true "hello") tt
      = (Ok "", tt, log) /\
    log = [ListTools; first_chat model "hello" []] /\
    invoked log = [] /\
    length (filter (fun c => is_chat c = true) log) = 1.
Proof.
  apply (process_query_silent model show
           (client_handler [] silent final_answer structured_42)
           "hello" [] [] silent);
    reflexivity.
Defined.

Lemma process_query_every_call_executed_witness :
  exists log,
    exec (client_handler [] two_calls final_answer echo_tool)
         (process_query model show true "count") tt
      = (Ok (String.concat nl
               (map (Client.marker_of show) [call_A; call_B] ++ ["done"])),
         tt, log) /\
    log = [ListTools; first_chat model "count" []]
          ++ map request_of [call_A; call_B]
          ++ [follow_up model "count"
                (mkMessage "tool" "count_csv_columns" (Some "count_csv_columns"))] /\
    invoked log = map call_pair [call_A; call_B].
Proof.
  apply (process_query_every_call_executed model show
           (client_handler [] two_calls final_answer echo_tool)
           "count" [] [] two_calls [call_A; call_B]
           [echo_tool "count_csv_rows" JNone; echo_tool "count_csv_columns" JNone]
           call_B (echo_tool "count_csv_columns" JNone)
           (mkMessage "tool" "count_csv_columns" (Some "count_csv_columns"))
           final_answer "done");
    try reflexivity.
  simpl. repeat split; reflexivity.
Defined.

(** C1, as stated, fails: with two tool calls in the reply, both are
    executed over the session, not only the last one. *)
Lemma process_query_not_only_last :
  ~ (forall OLLAMA_MODEL py_str (h : handler answer)
            query tools ollama_tools response calls last_call r log,
       h ListTools [] = Ok tools ->
       convert_all tools = Ok ollama_tools ->
       h (first_chat OLLAMA_MODEL query ollama_tools) [ListTools] = Ok response ->
       truthy_str (content (message response)) = false ->
       tool_calls (message response) = Some calls ->
       last calls = Some last_call ->
       exec h (process_query OLLAMA_MODEL py_str true query) tt = (r, tt, log) ->
       invoked log = [call_pair last_call]).
Proof.
  intros H.
  specialize (H model show
                (client_handler [] two_calls final_answer echo_tool)
                "count" [] [] two_calls [call_A; call_B] call_B _ _
                eq_refl eq_refl eq_refl eq_refl eq_refl eq_refl eq_refl).
  vm_compute in H. discriminate H.
Qed.

(** C9: the failing input.  A tool result without structured payload and
    with an empty content list makes [process_query] raise [IndexError],
    from [result.content[0]], and not the [ValueError] of the unsupported
    shape; a first block that is not text does raise the [ValueError]. *)
Theorem process_query_empty_content_index_error :
  (exists log,
     exec (client_handler [] one_call final_answer empty_result)
          (process_query model show true "count") tt
       = (Err IndexError, tt, log) /\
     invoked log = [call_pair call_A]) /\
  is_value_error IndexError = false /\
  (exists log,
     exec (client_handler [] one_call final_answer image_result)
          (process_query model show true "count") tt
       = (Err (ValueError "Unsupported content type from tool"), tt, log)).
Proof.
  split; [| split]; [| reflexivity |]; eexists; try split; reflexivity.
Qed.

End DispatchFacts.


(* ===================================================================== *)
(** ** More on the file lookup *)
(* ===================================================================== *)

Module LookupMore.
Import Pathlib FileSystem PathlibFacts FileSystemFacts Server LookupFacts Examples.

Lemma truediv_absolute p key :
  is_absolute (Path key) = true -> truediv p key = Path key.
Proof. intros H. unfold truediv. by rewrite H. Qed.

Lemma regular_is_file fs cwd file_path d :
  regular fs cwd file_path d = is_file fs cwd (candidate file_path d).
Proof.
  unfold regular.
  destruct (is_file fs cwd (candidate file_path d)) eqn:Hf.
  - by rewrite (is_file_exists _ _ _ Hf).
  - by rewrite andb_false_r.
Qed.

(** X1.  An absolute file path makes the lookup ignore the directories:
    with at least one allowed directory, the result is the file path
    itself (normalised) when it is an existing regular file, wherever it
    lies, and [None] otherwise. *)
Theorem find_file_in_allowed_dirs_absolute fs cwd file_path allowed_dirs :
  is_absolute (Path file_path) = true ->
  allowed_dirs <> [] ->
  find_file_in_allowed_dirs fs cwd file_path allowed_dirs =
    if is_file fs cwd (Path file_path) then Some (str (Path file_path))
    else None.
Proof.
  intros Habs Hne.
  assert (Hreg : forall d,
    regular fs cwd file_path d = is_file fs cwd (Path file_path)).
  { intros d. rewrite regular_is_file. unfold candidate.
    by rewrite truediv_absolute. }
  destruct (is_file fs cwd (Path file_path)) eqn:Hf.
  - destruct allowed_dirs as [|d rest]; [congruence |].
    cbn [find_file_in_allowed_dirs].
    fold (candidate file_path d). fold (regular fs cwd file_path d).
    rewrite Hreg. unfold candidate. by rewrite truediv_absolute.
  - apply find_file_None. intros d _. apply Hreg.
Qed.

Lemma find_file_in_allowed_dirs_absolute_witness :
  find_file_in_allowed_dirs fs_ab [] "/etc/passwd" ["/a"; "/b"] =
    if is_file fs_ab [] (Path "/etc/passwd") then Some (str (Path "/etc/passwd"))
    else None.
Proof.
  apply find_file_in_allowed_dirs_absolute; [reflexivity | discriminate].
Defined.

(** X2.  Looking a file up in two lists of directories put one after the
    other is looking it up in the first list and, only when it is not
    found there, in the second. *)
Theorem find_file_in_allowed_dirs_app fs cwd file_path dirs1 dirs2 :
  find_file_in_allowed_dirs fs cwd file_path (dirs1 ++ dirs2) =
    match find_file_in_allowed_dirs fs cwd file_path dirs1 with
    | Some p => Some p
    | None => find_file_in_allowed_dirs fs cwd file_path dirs2
    end.
Proof.
  induction dirs1 as [|d dirs1 IH]; [reflexivity |].
  cbn [app find_file_in_allowed_dirs].
  destruct (path_exists fs cwd (truediv (Path d) file_path)
            && is_file fs cwd (truediv (Path d) file_path));
    [reflexivity | exact IH].
Qed.

(** X3.  The string the lookup returns, parsed again as a path, denotes an
    existing regular file of the file system. *)
Theorem find_file_in_allowed_dirs_is_file fs cwd file_path allowed_dirs p :
  find_file_in_allowed_dirs fs cwd file_path allowed_dirs = Some p ->
  path_exists fs cwd (Path p) = true /\ is_file fs cwd (Path p) = true.
Proof.
  intros Hfind.
  apply find_file_Some in Hfind as (i & d & _ & Hreg & -> & _).
  rewrite regular_is_file in Hreg. unfold candidate in *.
  rewrite Path_str by apply truediv_wf, Path_wf.
  split; [by apply is_file_exists | exact Hreg].
Qed.

Lemma find_file_in_allowed_dirs_is_file_witness :
  path_exists fs_ab [] (Path "/b/x.csv") = true /\
  is_file fs_ab [] (Path "/b/x.csv") = true.
Proof.
  apply (find_file_in_allowed_dirs_is_file fs_ab [] "x.csv" ["/c"; "/b/"]).
  reflexivity.
Defined.

End LookupMore.

(* ===================================================================== *)
(** ** Running embedded programs *)
(* ===================================================================== *)

Module EmbeddingFacts.
Import Py Interaction Embedding RunFacts.

Section Translate.
Context {E F : Type} {ansE : E -> Type} {ansF : F -> Type}.
Context (inj : E -> F) (conv : forall e, ansF (inj e) -> ansE e).
Context (H : handler ansF).

(** The caller's run of a callee is the callee's run against the
    restricted collaborator, with the callee's log appended to the
    caller's. *)
Lemma run_translate {R} (p : prog ansE R) : forall before log,
  run H (translate inj conv p) (before ++ map inj log) =
  ((run (restrict inj conv H before) p log).1,
   before ++ map inj (run (restrict inj conv H before) p log).2).
Proof.
  induction p as [r | e k IH]; intros before log; [reflexivity |].
  cbn [translate run].
  replace ((before ++ map inj log) ++ [inj e])
    with (before ++ map inj (log ++ [e]))
    by (by rewrite map_app, app_assoc).
  apply IH.
Qed.

Lemma run_translate_from {R} (p : prog ansE R) before :
  run H (translate inj conv p) before =
  ((run (restrict inj conv H before) p []).1,
   before ++ map inj (run (restrict inj conv H before) p []).2).
Proof.
  rewrite <- (run_translate p before []). cbn [map]. by rewrite app_nil_r.
Qed.

End Translate.

Section Control.
Context {E : Type} {answer : E -> Type} (h : handler answer).

Lemma run_try_except {S A} (body : M answer S A) on_error s log :
  run h (try_except body on_error s) log =
  match run h (body s) log with
  | (Ok a, s', log') => (Ok a, s', log')
  | (Err e, s', log') => run h (on_error e s') log'
  end.
Proof.
  unfold try_except. rewrite run_pbind.
  destruct (run h (body s) log) as [[[a | e] s'] log']; reflexivity.
Qed.

Lemma run_try_except_exception {S A} base (body : M answer S A)
    on_error s log :
  run h (try_except_exception base body on_error s) log =
  match run h (body s) log with
  | (Ok a, s', log') => (Ok a, s', log')
  | (Err e, s', log') =>
      if is_exception base e then run h (on_error e s') log'
      else (Err e, s', log')
  end.
Proof.
  unfold try_except_exception. rewrite run_pbind.
  destruct (run h (body s) log) as [[[a | e] s'] log']; [reflexivity |].
  cbn [fst snd]. by destruct (is_exception base e).
Qed.

Lemma run_ret {S A} (a : A) (s : S) log : run h (ret a s) log = (Ok a, s, log).
Proof. reflexivity. Qed.

Lemma run_raise {S A} (e : exn) (s : S) log :
  run h (raise (A := A) e s) log = (Err e, s, log).
Proof. reflexivity. Qed.

End Control.
End EmbeddingFacts.

(* ===================================================================== *)
(** ** The four tools of the server *)
(* ===================================================================== *)

Module ToolsFacts.
Import Py Interaction Embedding RunFacts EmbeddingFacts.
Import Pathlib FileSystem Server ResolverFacts Tools Examples Scenarios.

Section Tools.
Context (fs : node) (cwd : location).
Context (py_repr : list string -> string) (py_str_other : exn -> string).
Context (base : string -> bool).
Context (H : handler answer).

#[local] Abbreviation csv_tool := (Tools.csv_tool fs cwd py_repr py_str_other base).
#[local] Abbreviation get_csv_schema := (Tools.get_csv_schema fs cwd py_repr py_str_other base).
#[local] Abbreviation count_csv_columns := (Tools.count_csv_columns fs cwd py_repr py_str_other base).
#[local] Abbreviation count_csv_rows := (Tools.count_csv_rows fs cwd py_repr py_str_other base).
#[local] Abbreviation read_csv_columns := (Tools.read_csv_columns fs cwd py_repr py_str_other base).
#[local] Abbreviation str_exn := (Tools.str_exn py_str_other).
#[local] Abbreviation file_not_found := (Tools.file_not_found py_repr).
#[local] Abbreviation wrapped := (Tools.wrapped py_str_other base).

Lemma get_csv_schema_csv_tool file_path :
  get_csv_schema file_path
  = csv_tool "Error getting CSV schema: " schema file_path.
Proof. reflexivity. Qed.

Lemma count_csv_columns_csv_tool file_path :
  count_csv_columns file_path
  = csv_tool "Error counting CSV rows: " (fun df => length (columns df)) file_path.
Proof. reflexivity. Qed.

Lemma count_csv_rows_csv_tool file_path :
  count_csv_rows file_path
  = csv_tool "Error counting CSV rows: " height file_path.
Proof. reflexivity. Qed.

Lemma read_csv_columns_csv_tool file_path :
  read_csv_columns file_path
  = csv_tool "Error reading CSV file: " columns file_path.
Proof. reflexivity. Qed.

(** Resolution inside a tool is resolution against the tool's
    collaborators. *)
Lemma run_resolve_dirs s :
  run H (resolve_dirs s) [] =
  match exec (resolver_of H) get_directories s with
  | (r, s', log) => (r, s', map Resolve log)
  end.
Proof.
  unfold resolve_dirs, exec. rewrite run_translate_from. cbn [app].
  change (((run (resolver_of H) (get_directories s) []).1,
           map Resolve (run (resolver_of H) (get_directories s) []).2)
          = match run (resolver_of H) (get_directories s) [] with
            | (r, s', log) => (r, s', map Resolve log)
            end).
  by destruct (run (resolver_of H) (get_directories s) []) as [[r s'] log].
Qed.

(** The run of a tool: resolution, then the lookup, then the read. *)
Lemma exec_csv_tool {A} prefix (post : DataFrame -> A) file_path s :
  exec H (csv_tool prefix post file_path) s =
  match exec (resolver_of H) get_directories s with
  | (Err e, s', log) => (Err (wrapped prefix e), s', map Resolve log)
  | (Ok dirs, s', log) =>
      match find_file_in_allowed_dirs fs cwd file_path dirs with
      | None =>
          (Err (ValueError (prefix +:+ file_not_found dirs)), s',
           map Resolve log)
      | Some full_file_path =>
          match H (ReadCsv full_file_path) (map Resolve log) with
          | Ok df =>
              (Ok (post df), s', map Resolve log ++ [ReadCsv full_file_path])
          | Err e =>
              (Err (wrapped prefix e), s',
               map Resolve log ++ [ReadCsv full_file_path])
          end
      end
  end.
Proof.
  unfold exec at 1. unfold Tools.csv_tool, Tools.wrapped.
  rewrite run_try_except_exception, run_bind, run_resolve_dirs.
  destruct (exec (resolver_of H) get_directories s) as [[[dirs | e] s'] log].
  2: { by destruct (is_exception base e). }
  destruct (find_file_in_allowed_dirs fs cwd file_path dirs) as [p|];
    [| reflexivity].
  rewrite run_bind. unfold read_csv.
  change (run H (Interaction.await (ReadCsv p) s') (map Resolve log))
    with (H (ReadCsv p) (map Resolve log), s', map Resolve log ++ [ReadCsv p]).
  destruct (H (ReadCsv p) (map Resolve log)) as [df | e]; [reflexivity |].
  by destruct (is_exception base e).
Qed.

(** What a tool raises: the wrapped exception, or one from outside
    [Exception] as it came. *)
Lemma wrapped_cases prefix e :
  (exists msg, wrapped prefix e = ValueError (prefix +:+ msg)) \/
  (exists name, wrapped prefix e = Other name /\ base name = true).
Proof.
  unfold Tools.wrapped. destruct (is_exception base e) eqn:He; [eauto |].
  right. destruct e; try discriminate. cbn in He.
  eexists. split; [reflexivity |]. by destruct (base msg).
Qed.

(** A failed tool call raises [ValueError] with the prefix of the tool, or
    lets an exception from outside [Exception] through. *)
Lemma csv_tool_error {A} prefix (post : DataFrame -> A) file_path s e s' log :
  exec H (csv_tool prefix post file_path) s = (Err e, s', log) ->
  (exists msg, e = ValueError (prefix +:+ msg)) \/
  (exists name, e = Other name /\ base name = true).
Proof.
  rewrite exec_csv_tool.
  destruct (exec (resolver_of H) get_directories s) as [[[dirs | e0] s0] log0].
  - destruct (find_file_in_allowed_dirs fs cwd file_path dirs) as [p|].
    + destruct (H (ReadCsv p) (map Resolve log0)) as [df | e0];
        [discriminate |].
      intros [= <- <- <-]. apply wrapped_cases.
    + intros [= <- <- <-]. eauto.
  - intros [= <- <- <-]. apply wrapped_cases.
Qed.


(** X5.  When the directories resolve and the file is in none of them, a
    tool reads nothing: it raises [ValueError] naming the directories
    searched, its only requests are those of the resolution, and the
    directories stay cached. *)
Theorem tools_file_not_found file_path s dirs s' log :
  exec (resolver_of H) get_directories s = (Ok dirs, s', log) ->
  find_file_in_allowed_dirs fs cwd file_path dirs = None ->
  s' = Some dirs /\
  exec H (get_csv_schema file_path) s =
    (Err (ValueError ("Error getting CSV schema: " +:+ file_not_found dirs)),
     s', map Resolve log) /\
  exec H (count_csv_columns file_path) s =
    (Err (ValueError ("Error counting CSV rows: " +:+ file_not_found dirs)),
     s', map Resolve log) /\
  exec H (count_csv_rows file_path) s =
    (Err (ValueError ("Error counting CSV rows: " +:+ file_not_found dirs)),
     s', map Resolve log) /\
  exec H (read_csv_columns file_path) s =
    (Err (ValueError ("Error reading CSV file: " +:+ file_not_found dirs)),
     s', map Resolve log) /\
  Forall (fun r => is_read_csv r = false) (map Resolve log).
Proof.
  intros Hres Hnone.
  split; [by eapply exec_ok_caches |].
  rewrite get_csv_schema_csv_tool, count_csv_columns_csv_tool,
    count_csv_rows_csv_tool, read_csv_columns_csv_tool.
  rewrite !exec_csv_tool, Hres, Hnone.
  repeat split; try reflexivity.
  apply Forall_map, Forall_true. reflexivity.
Qed.

(** X6.  The tools agree with each other: when [get_csv_schema] succeeds,
    then, from the same store and against the same collaborators,
    [read_csv_columns] returns the names of that schema in the same order,
    [count_csv_columns] returns their number, [count_csv_rows] succeeds
    too, and all four issue the same requests, with exactly one read. *)
Theorem tools_agree file_path s sch s' log :
  exec H (get_csv_schema file_path) s = (Ok sch, s', log) ->
  exec H (read_csv_columns file_path) s = (Ok sch.*1, s', log) /\
  exec H (count_csv_columns file_path) s = (Ok (length sch), s', log) /\
  (exists rows, exec H (count_csv_rows file_path) s = (Ok rows, s', log)) /\
  length (filter (fun r => is_read_csv r = true) log) = 1.
Proof.
  rewrite get_csv_schema_csv_tool, count_csv_columns_csv_tool,
    count_csv_rows_csv_tool, read_csv_columns_csv_tool.
  rewrite !exec_csv_tool.
  destruct (exec (resolver_of H) get_directories s) as [[[dirs | e] s0] log0];
    [| discriminate].
  destruct (find_file_in_allowed_dirs fs cwd file_path dirs) as [p|];
    [| discriminate].
  destruct (H (ReadCsv p) (map Resolve log0)) as [df | e]; [| discriminate].
  intros [= <- <- <-].
  unfold columns. rewrite length_fmap.
  repeat split; eauto.
  rewrite filter_app, length_app. cbn.
  replace (filter (fun r => is_read_csv r = true) (map Resolve log0))
    with (@nil request); [reflexivity |].
  symmetry. induction log0 as [|r log0 IH]; [reflexivity |].
  cbn [map]. rewrite filter_cons_False by (simpl; discriminate). exact IH.
Qed.

(** X7.  Once the directories are cached, no tool asks the client or the
    command line again: each of the four leaves the cache as it is, and
    its only request is one read, of the path the lookup finds among the
    cached directories, or none when the lookup finds nothing. *)
Theorem tools_use_cache file_path dirs :
  let expected :=
    match find_file_in_allowed_dirs fs cwd file_path dirs with
    | Some full_file_path => [ReadCsv full_file_path]
    | None => []
    end in
  (exec H (get_csv_schema file_path) (Some dirs)).1.2 = Some dirs /\
  (exec H (get_csv_schema file_path) (Some dirs)).2 = expected /\
  (exec H (count_csv_columns file_path) (Some dirs)).1.2 = Some dirs /\
  (exec H (count_csv_columns file_path) (Some dirs)).2 = expected /\
  (exec H (count_csv_rows file_path) (Some dirs)).1.2 = Some dirs /\
  (exec H (count_csv_rows file_path) (Some dirs)).2 = expected /\
  (exec H (read_csv_columns file_path) (Some dirs)).1.2 = Some dirs /\
  (exec H (read_csv_columns file_path) (Some dirs)).2 = expected /\
  Forall (fun q => is_resolve q = false) expected.
Proof.
  intros expected. subst expected.
  rewrite get_csv_schema_csv_tool, count_csv_columns_csv_tool,
    count_csv_rows_csv_tool, read_csv_columns_csv_tool.
  rewrite !exec_csv_tool, exec_cached.
  destruct (find_file_in_allowed_dirs fs cwd file_path dirs) as [p|].
  - cbn [map app].
    destruct (H (ReadCsv p) []); repeat split; repeat constructor.
  - repeat split; constructor.
Qed.

End Tools.


Lemma tools_file_not_found_witness :
  Some ["/srv/data"] = Some ["/srv/data"] /\
  exec (tools_handler false [] args_static (Ok sales))
       (get_csv_schema fs_srv [] show_list show_exn outside_exception "missing.csv") None =
    (Err (ValueError ("Error getting CSV schema: "
                      +:+ file_not_found show_list ["/srv/data"])),
     Some ["/srv/data"],
     map Resolve [CheckClientCapability; ParseArgs]).
Proof.
  destruct (tools_file_not_found fs_srv [] show_list show_exn outside_exception
              (tools_handler false [] args_static (Ok sales))
              "missing.csv" None ["/srv/data"] (Some ["/srv/data"])
              [CheckClientCapability; ParseArgs] eq_refl eq_refl)
    as (Hs & Hschema & _).
  split; [exact Hs | exact Hschema].
Defined.

Lemma tools_agree_witness :
  exec (tools_handler false [] args_static (Ok sales))
       (read_csv_columns fs_srv [] show_list show_exn outside_exception "sales.csv") None =
    (Ok ["region"; "amount"], Some ["/srv/data"],
     [Resolve CheckClientCapability; Resolve ParseArgs;
      ReadCsv "/srv/data/sales.csv"]) /\
  exec (tools_handler false [] args_static (Ok sales))
       (count_csv_columns fs_srv [] show_list show_exn outside_exception "sales.csv") None =
    (Ok 2, Some ["/srv/data"],
     [Resolve CheckClientCapability; Resolve ParseArgs;
      ReadCsv "/srv/data/sales.csv"]).
Proof.
  destruct (tools_agree fs_srv [] show_list show_exn outside_exception
              (tools_handler false [] args_static (Ok sales))
              "sales.csv" None (schema sales) (Some ["/srv/data"])
              [Resolve CheckClientCapability; Resolve ParseArgs;
               ReadCsv "/srv/data/sales.csv"] eq_refl)
    as (Hcols & Hcount & _).
  split; [exact Hcols | exact Hcount].
Defined.

End ToolsFacts.

(* ===================================================================== *)
(** ** The directory validation *)
(* ===================================================================== *)

Module ValidationFacts.
Import Py Pathlib FileSystem PathlibFacts FileSystemFacts Tools Scenarios.

Lemma walk_app a : forall n b,
  walk n (a ++ b) =
  match walk n a with
  | Some m => walk m b
  | None => None
  end.
Proof.
  intros n. revert n.
  induction a as [|c a IH]; intros n b; [reflexivity |].
  cbn [app walk]. destruct n as [|es]; [reflexivity |].
  destruct (es !! c); [apply IH | reflexivity].
Qed.

Lemma walk_further_is_dir fs pre c cs n :
  walk fs (pre ++ c :: cs) = Some n -> is_dir_at fs pre = true.
Proof.
  rewrite walk_app. unfold is_dir_at.
  destruct (walk fs pre) as [[|es]|]; [| reflexivity | discriminate].
  discriminate.
Qed.

(** Names without a parent-directory component lead where they say. *)
Lemma resolve_from_canonical fs loc : forall pre n,
  ".." ∉ loc ->
  walk fs (pre ++ loc) = Some n ->
  resolve_from fs pre loc = Some (pre ++ loc).
Proof.
  induction loc as [|c cs IH]; intros pre n Hno Hwalk.
  - by rewrite app_nil_r.
  - cbn [resolve_from].
    rewrite (walk_further_is_dir fs pre c cs n Hwalk).
    apply not_elem_of_cons in Hno as [Hc Hcs].
    unfold step. rewrite decide_False by congruence.
    rewrite (IH (pre ++ [c]) n Hcs); rewrite <- app_assoc; done.
Qed.

(** Resolution by the file system agrees with the lexical one. *)
Lemma resolve_from_foldl fs comps : forall start loc,
  resolve_from fs start comps = Some loc -> foldl step start comps = loc.
Proof.
  induction comps as [|c cs IH]; intros start loc; cbn.
  - by intros [= <-].
  - destruct (is_dir_at fs start); [apply IH | discriminate].
Qed.

Lemma foldl_step_descends comps : forall start,
  ".." ∉ comps -> foldl step start comps = start ++ comps.
Proof.
  induction comps as [|c cs IH]; intros start Hno; cbn.
  - by rewrite app_nil_r.
  - apply not_elem_of_cons in Hno as [Hc Hcs].
    rewrite IH by exact Hcs. unfold step.
    rewrite decide_False by congruence. by rewrite <- app_assoc.
Qed.

Lemma Forall_removelast {A} (P : A -> Prop) l :
  Forall P l -> Forall P (removelast l).
Proof.
  induction 1 as [|x l Hx Hl IH]; [constructor |].
  cbn. destruct l; [constructor |]. by constructor.
Qed.

Lemma foldl_step_names comps : forall start,
  Forall name_ok start ->
  Forall (fun x => kept x /\ plain x) comps ->
  Forall name_ok (foldl step start comps).
Proof.
  induction comps as [|c cs IH]; intros start Hstart Hcomps; [exact Hstart |].
  inversion Hcomps as [|? ? [Hk Hp] Hrest]; subst.
  cbn. apply IH; [| exact Hrest].
  unfold step. case_decide as Hc.
  - by apply Forall_removelast.
  - apply Forall_app. split; [exact Hstart |].
    constructor; [| constructor]. exact (conj Hk (conj Hp Hc)).
Qed.

Lemma names_no_parent l : Forall name_ok l -> ".." ∉ l.
Proof.
  intros Hall Hin. rewrite list.Forall_forall in Hall.
  destruct (Hall _ Hin) as (_ & _ & Hne). congruence.
Qed.

Lemma names_wf l : Forall name_ok l -> wf_path (mkPath "/" l).
Proof.
  intros Hall. split; [by right; left |]. cbn.
  eapply Forall_impl; [exact Hall |]. intros x (Hk & Hp & _). by split.
Qed.

Section Validation.
Context (fs : node) (cwd : location).

#[local] Abbreviation validate_directory_path := (Tools.validate_directory_path fs cwd).
#[local] Abbreviation is_dir := (Tools.is_dir fs cwd).
#[local] Abbreviation resolve := (Tools.resolve cwd).

Lemma is_dir_exists p : is_dir p = true -> path_exists fs cwd p = true.
Proof. unfold Tools.is_dir, path_exists. by destruct (stat fs cwd p) as [[]|]. Qed.

Lemma validate_ok_iff path q :
  validate_directory_path path = Ok q <->
  is_dir (Path path) = true /\ q = resolve (Path path).
Proof.
  unfold Tools.validate_directory_path. cbv zeta.
  destruct (is_dir (Path path)) eqn:Hd.
  - rewrite (is_dir_exists _ Hd). cbn. split.
    + by intros [= <-].
    + by intros [_ ->].
  - destruct (path_exists fs cwd (Path path)); cbn; split;
      try discriminate; by intros [? _].
Qed.

(** X8.  When the working directory is made of plain names, a directory
    path that passes the validation comes back absolute and without
    parent-directory components, still denotes the directory the input
    denotes, and passes the validation again unchanged when printed. *)
Theorem validate_directory_path_canonical path q :
  Forall name_ok cwd ->
  validate_directory_path path = Ok q ->
  is_absolute q = true /\
  (".." ∉ tail q) /\
  stat fs cwd q = stat fs cwd (Path path) /\
  is_dir q = true /\
  validate_directory_path (str q) = Ok q.
Proof.
  intros Hcwd Hok. apply validate_ok_iff in Hok as [Hdir ->].
  assert (Hstart : Forall name_ok (if is_absolute (Path path) then [] else cwd)).
  { destruct (is_absolute (Path path)); [constructor | exact Hcwd]. }
  pose proof (foldl_step_names (tail (Path path)) _ Hstart
                (proj2 (Path_wf path))) as Hnames.
  unfold Tools.is_dir in Hdir.
  destruct (stat fs cwd (Path path)) as [[|es]|] eqn:Hstat; try discriminate.
  unfold stat in Hstat.
  destruct (locate fs cwd (Path path)) as [loc|] eqn:Hloc; [| discriminate].
  unfold locate in Hloc.
  pose proof (resolve_from_foldl fs _ _ _ Hloc) as Hfold.
  assert (Hres : resolve (Path path) = mkPath "/" loc).
  { unfold Tools.resolve. f_equal. exact Hfold. }
  assert (Hloc_ok : Forall name_ok loc).
  { rewrite <- Hfold. exact Hnames. }
  clear Hnames. rename Hloc_ok into Hnames. rewrite Hres.
  pose proof (names_no_parent loc Hnames) as Hno.
  assert (Hq : locate fs cwd (mkPath "/" loc) = Some loc).
  { unfold locate. cbn.
    exact (resolve_from_canonical fs loc [] (Dir es) Hno Hstat). }
  assert (Hstatq : stat fs cwd (mkPath "/" loc) = Some (Dir es)).
  { unfold stat. by rewrite Hq. }
  assert (Hdirq : is_dir (mkPath "/" loc) = true).
  { unfold Tools.is_dir. by rewrite Hstatq. }
  split; [reflexivity |].
  split; [exact Hno |].
  split; [exact Hstatq |].
  split; [exact Hdirq |].
  apply validate_ok_iff.
  rewrite (Path_str _ (names_wf loc Hnames)).
  split; [exact Hdirq |].
  unfold Tools.resolve. f_equal. symmetry.
  exact (foldl_step_descends loc [] Hno).
Qed.


End Validation.

Lemma validate_directory_path_canonical_witness :
  is_absolute (mkPath "/" ["srv"; "data"]) = true /\
  (".." ∉ tail (mkPath "/" ["srv"; "data"])) /\
  stat fs_srv ["srv"; "empty"] (mkPath "/" ["srv"; "data"])
    = stat fs_srv ["srv"; "empty"] (Path "../data/./") /\
  Tools.is_dir fs_srv ["srv"; "empty"] (mkPath "/" ["srv"; "data"]) = true /\
  Tools.validate_directory_path fs_srv ["srv"; "empty"]
    (str (mkPath "/" ["srv"; "data"])) = Ok (mkPath "/" ["srv"; "data"]).
Proof.
  apply (validate_directory_path_canonical fs_srv ["srv"; "empty"] "../data/./").
  - repeat constructor; discriminate.
  - reflexivity.
Defined.

End ValidationFacts.

(* ===================================================================== *)
(** ** More on the tool catalog adapter *)
(* ===================================================================== *)

Module AdapterMore.
Import Py Client AdapterFacts Examples.

(** X10.  The adapter converts a descriptor exactly when its schema has a
    [required] entry and a [properties] entry that is a mapping whose
    values are all mappings with a [type] key.  A missing [required] entry
    is reported first ([KeyError] on ["required"]), then a missing
    [properties] entry, then a [properties] entry that is no mapping
    ([AttributeError]). *)
Theorem convert_tools_to_ollama_format_succeeds_iff tool :
  ((exists out, convert_tools_to_ollama_format tool = Ok out) <->
   (exists req props,
      dict_get (inputSchema tool) "required" = Some req /\
      dict_get (inputSchema tool) "properties" = Some (JDict props) /\
      Forall typed props.*2)) /\
  (dict_get (inputSchema tool) "required" = None ->
   convert_tools_to_ollama_format tool = Err (KeyError "required")) /\
  (is_Some (dict_get (inputSchema tool) "required") ->
   dict_get (inputSchema tool) "properties" = None ->
   convert_tools_to_ollama_format tool = Err (KeyError "properties")) /\
  (is_Some (dict_get (inputSchema tool) "required") ->
   forall v, dict_get (inputSchema tool) "properties" = Some v ->
             (forall props, v <> JDict props) ->
             convert_tools_to_ollama_format tool = Err AttributeError).
Proof.
  unfold convert_tools_to_ollama_format. cbn [getitem].
  split; [| split; [| split]].
  - split.
    + intros [out Hout].
      destruct (dict_get (inputSchema tool) "required") as [req|];
        [| discriminate].
      destruct (dict_get (inputSchema tool) "properties") as [v|];
        [| discriminate].
      destruct v as [| | | | |props]; try discriminate. cbn [items] in Hout.
      destruct (narrow_properties props) as [out'|e] eqn:Hn; [| discriminate].
      exists req, props. repeat split. by eapply narrow_properties_untyped.
    + intros (req & props & -> & -> & Htyped). cbn [items].
      rewrite (narrow_properties_typed props Htyped). eauto.
  - by intros ->.
  - intros [req ->] ->. reflexivity.
  - intros [req ->] v -> Hv.
    destruct v as [| | | | |props]; try reflexivity. by destruct (Hv props).
Qed.

Lemma convert_all_Forall2 tools outs :
  convert_all tools = Ok outs <->
  Forall2 (fun t o => convert_tools_to_ollama_format t = Ok o) tools outs.
Proof.
  revert outs. induction tools as [|t tools IH]; intros outs; cbn.
  - split.
    + intros [= <-]. constructor.
    + intros Hall. by inversion Hall.
  - destruct (convert_tools_to_ollama_format t) as [o|e] eqn:Ht.
    + destruct (convert_all tools) as [os|e] eqn:Hts.
      * split.
        { intros [= <-]. constructor; [exact Ht | by apply IH]. }
        intros Hall. inversion Hall as [|? o' ? os' Ho Hos]; subst.
        apply IH in Hos. congruence.
      * split; [discriminate |].
        intros Hall. inversion Hall as [|? o' ? os' Ho Hos]; subst.
        apply IH in Hos. discriminate.
    + split; [discriminate |].
      intros Hall. inversion Hall as [|? o' ? os' Ho Hos]; subst. congruence.
Qed.

(** The first descriptor that does not convert decides the error. *)
Lemma convert_all_first_error good bad rest e :
  Forall (fun t => exists o, convert_tools_to_ollama_format t = Ok o) good ->
  convert_tools_to_ollama_format bad = Err e ->
  convert_all (good ++ bad :: rest) = Err e.
Proof.
  induction 1 as [|t good [o Ho] _ IH]; intros Hbad; cbn.
  - by rewrite Hbad.
  - by rewrite Ho, (IH Hbad).
Qed.

End AdapterMore.

(* ===================================================================== *)
(** ** More on the query dispatch loop *)
(* ===================================================================== *)

Module DispatchMore.
Import Py Interaction Client RunFacts AdapterMore DispatchFacts Examples Scenarios.

Section Dispatch.
Context (OLLAMA_MODEL : string) (py_str : json -> string).
Context (h : handler answer).

#[local] Abbreviation process_query := (Client.process_query OLLAMA_MODEL py_str).
#[local] Abbreviation call_tools := (Client.call_tools py_str).
#[local] Abbreviation tool_message := (Client.tool_message py_str).
#[local] Abbreviation marker_of := (Client.marker_of py_str).
#[local] Abbreviation first_chat := (Client.first_chat OLLAMA_MODEL).
#[local] Abbreviation follow_up := (Client.follow_up OLLAMA_MODEL).

(** X11.  One descriptor of the catalog that the adapter cannot convert
    makes the whole query fail with the adapter's error for the first such
    descriptor, right after the catalog request: the model is not asked
    and no tool is called.  Without a session the query fails on its
    assertion before any request. *)
Theorem process_query_malformed_catalog query good bad rest e :
  h ListTools [] = Ok (good ++ bad :: rest) ->
  Forall (fun t => exists o, convert_tools_to_ollama_format t = Ok o) good ->
  convert_tools_to_ollama_format bad = Err e ->
  exec h (process_query true query) tt = (Err e, tt, [ListTools]) /\
  exec h (process_query false query) tt
    = (Err (AssertionError "Not connected to any MCP server"), tt, []).
Proof.
  intros Htools Hgood Hbad. split; [| reflexivity].
  unfold exec, Client.process_query.
  rewrite run_bind. cbn [ret run].
  rewrite run_bind, run_await. cbn [app]. rewrite Htools.
  rewrite run_bind, run_lift.
  by rewrite (convert_all_first_error good bad rest e Hgood Hbad).
Qed.

(** The loop stops at the first call the session answers with an
    exception. *)
Lemma run_call_tools_fail pre : forall c post vars log answers e,
  answered h log pre answers ->
  h (request_of c) (log ++ map request_of pre) = Err e ->
  run h (call_tools (pre ++ c :: post) vars tt) log =
    (Err e, tt, log ++ map request_of pre ++ [request_of c]).
Proof.
  induction pre as [|p pre IH]; intros c post vars log answers e Hans Hfail.
  - cbn [app map] in *. rewrite app_nil_r in Hfail.
    cbn [Client.call_tools]. rewrite run_bind, run_await.
    fold (request_of c). by rewrite Hfail.
  - destruct answers as [|a answers]; [contradiction |].
    destruct Hans as [Ha Hrest].
    cbn [app Client.call_tools]. rewrite run_bind, run_await.
    fold (request_of p). rewrite Ha.
    rewrite (IH c post _ (log ++ [request_of p]) answers e Hrest).
    + cbn [map]. by rewrite <- !app_assoc.
    + rewrite <- app_assoc. exact Hfail.
Qed.

(** X12.  When the session answers one of the tool calls with an
    exception, the query fails with that exception: the calls before it
    have been executed, the calls after it are not, and the model is not
    asked again. *)
Theorem process_query_call_fails
    query tools ollama_tools response pre c post answers e :
  h ListTools [] = Ok tools ->
  convert_all tools = Ok ollama_tools ->
  h (first_chat query ollama_tools) [ListTools] = Ok response ->
  truthy_str (content (message response)) = false ->
  tool_calls (message response) = Some (pre ++ c :: post) ->
  answered h [ListTools; first_chat query ollama_tools] pre answers ->
  h (request_of c)
    ([ListTools; first_chat query ollama_tools] ++ map request_of pre)
    = Err e ->
  exec h (process_query true query) tt =
    (Err e, tt,
     [ListTools; first_chat query ollama_tools]
       ++ map request_of pre ++ [request_of c]) /\
  invoked ([ListTools; first_chat query ollama_tools]
             ++ map request_of pre ++ [request_of c])
    = map call_pair (pre ++ [c]).
Proof.
  intros Htools Hconv Hchat Htext Hcalls Hans Hfail. split.
  - rewrite (exec_process_query OLLAMA_MODEL py_str h query tools
               ollama_tools response) by assumption.
    cbv zeta. rewrite Htext, Hcalls.
    assert (Hseq : truthy_seq (Some (pre ++ c :: post)) = true)
      by (by destruct pre).
    rewrite Hseq. cbn [default from_option id].
    by rewrite (run_call_tools_fail pre c post _ _ answers e Hans Hfail).
  - rewrite !invoked_app, invoked_requests, map_app. reflexivity.
Qed.

(** X13.  When the result of the last tool call cannot be turned into a
    tool-role message (no [result] key in the structured payload, no
    content block, or a first block that is not text), the query fails with
    that error after every tool call of the reply has been executed, and
    the model is not asked again. *)
Theorem process_query_result_shape_error
    query tools ollama_tools response calls answers last_call last_result e :
  h ListTools [] = Ok tools ->
  convert_all tools = Ok ollama_tools ->
  h (first_chat query ollama_tools) [ListTools] = Ok response ->
  truthy_str (content (message response)) = false ->
  tool_calls (message response) = Some calls ->
  last calls = Some last_call ->
  answered h [ListTools; first_chat query ollama_tools] calls answers ->
  last answers = Some last_result ->
  tool_message last_result (fn_name (function_ last_call)) = Err e ->
  exec h (process_query true query) tt =
    (Err e, tt,
     [ListTools; first_chat query ollama_tools] ++ map request_of calls) /\
  length (filter (fun c => is_chat c = true)
            ([ListTools; first_chat query ollama_tools] ++ map request_of calls))
    = 1.
Proof.
  intros Htools Hconv Hchat Htext Hcalls Hlast Hans Hres Hmsg. split.
  - rewrite (exec_process_query OLLAMA_MODEL py_str h query tools
               ollama_tools response) by assumption.
    cbv zeta. rewrite Htext, Hcalls.
    assert (Hseq : truthy_seq (Some calls) = true).
    { destruct calls; [discriminate Hlast | reflexivity]. }
    rewrite Hseq. cbn [default from_option id].
    rewrite (run_call_tools py_str h calls _ _ answers Hans).
    unfold Client.after_loop. cbn [lv_result lv_tool_name lv_final_text].
    rewrite Hlast, Hres. cbn [from_option]. by rewrite Hmsg.
  - rewrite filter_app, length_app. cbn.
    replace (filter (fun c => is_chat c = true) (map request_of calls))
      with (@nil request); [reflexivity |].
    symmetry. clear. induction calls as [|c calls IH]; [reflexivity |].
    cbn [map]. rewrite filter_cons_False by (simpl; discriminate). exact IH.
Qed.

(** X14.  When the follow-up reply of the model carries no text at all,
    the query fails with [TypeError] when joining the answer, although
    every tool call has been executed and the follow-up request made. *)
Theorem process_query_follow_up_without_text
    query tools ollama_tools response calls answers
    last_call last_result tool_msg response2 :
  h ListTools [] = Ok tools ->
  convert_all tools = Ok ollama_tools ->
  h (first_chat query ollama_tools) [ListTools] = Ok response ->
  truthy_str (content (message response)) = false ->
  tool_calls (message response) = Some calls ->
  last calls = Some last_call ->
  answered h [ListTools; first_chat query ollama_tools] calls answers ->
  last answers = Some last_result ->
  tool_message last_result (fn_name (function_ last_call)) = Ok tool_msg ->
  h (follow_up query tool_msg)
    ([ListTools; first_chat query ollama_tools] ++ map request_of calls)
    = Ok response2 ->
  content (message response2) = None ->
  exec h (process_query true query) tt =
    (Err TypeError, tt,
     [ListTools; first_chat query ollama_tools]
       ++ map request_of calls ++ [follow_up query tool_msg]).
Proof.
  intros Htools Hconv Hchat Htext Hcalls Hlast Hans Hres Hmsg Hchat2 Hnone.
  rewrite (exec_process_query OLLAMA_MODEL py_str h query tools
             ollama_tools response) by assumption.
  cbv zeta. rewrite Htext, Hcalls.
  assert (Hseq : truthy_seq (Some calls) = true).
  { destruct calls; [discriminate Hlast | reflexivity]. }
  rewrite Hseq. cbn [default from_option id].
  rewrite (run_call_tools py_str h calls _ _ answers Hans).
  unfold Client.after_loop. cbn [lv_result lv_tool_name lv_final_text].
  rewrite Hlast, Hres. cbn [from_option].
  rewrite Hmsg, Hchat2, Hnone, app_nil_l.
  assert (Hjoin : forall l : list string,
            join nl (map Some l ++ [None]) = Err TypeError).
  { intros l. unfold join.
    assert (Hall : all_str (map Some l ++ [None]) = None).
    { induction l as [|x l IH]; [reflexivity |]. cbn. by rewrite IH. }
    by rewrite Hall. }
  rewrite <- (map_map marker_of Some calls), Hjoin.
  by rewrite <- app_assoc.
Qed.

End Dispatch.

Lemma process_query_malformed_catalog_witness :
  exec (client_handler [tool_rows; tool_untyped] one_call final_answer structured_42)
       (process_query model show true "count") tt
    = (Err (KeyError "type"), tt, [ListTools]) /\
  exec (client_handler [tool_rows; tool_untyped] one_call final_answer structured_42)
       (process_query model show false "count") tt
    = (Err (AssertionError "Not connected to any MCP server"), tt, []).
Proof.
  apply (process_query_malformed_catalog model show
           (client_handler [tool_rows; tool_untyped] one_call final_answer
              structured_42)
           "count" [tool_rows] tool_untyped [] (KeyError "type")).
  - reflexivity.
  - constructor; [| constructor]. eexists. reflexivity.
  - reflexivity.
Defined.

Lemma process_query_call_fails_witness :
  exec (client_handler_with [] two_calls final_answer rows_only)
       (process_query model show true "count") tt =
    (Err (Other "timed out"), tt,
     [ListTools; first_chat model "count" []]
       ++ map request_of [call_A] ++ [request_of call_B]) /\
  invoked ([ListTools; first_chat model "count" []]
             ++ map request_of [call_A] ++ [request_of call_B])
    = map call_pair ([call_A] ++ [call_B]).
Proof.
  apply (process_query_call_fails model show
           (client_handler_with [] two_calls final_answer rows_only)
           "count" [] [] two_calls [call_A] call_B []
           [structured_42 "count_csv_rows" JNone] (Other "timed out"));
    try reflexivity.
  simpl. split; reflexivity.
Defined.

Lemma process_query_result_shape_error_witness :
  exec (client_handler [] two_calls final_answer image_result)
       (process_query model show true "count") tt =
    (Err (ValueError "Unsupported content type from tool"), tt,
     [ListTools; first_chat model "count" []]
       ++ map request_of [call_A; call_B]) /\
  length (filter (fun c => is_chat c = true)
            ([ListTools; first_chat model "count" []]
               ++ map request_of [call_A; call_B])) = 1.
Proof.
  apply (process_query_result_shape_error model show
           (client_handler [] two_calls final_answer image_result)
           "count" [] [] two_calls [call_A; call_B]
           [image_result "" JNone; image_result "" JNone]
           call_B (image_result "" JNone)
           (ValueError "Unsupported content type from tool"));
    try reflexivity.
  simpl. repeat split; reflexivity.
Defined.

Lemma process_query_follow_up_without_text_witness :
  exec (client_handler [] one_call silent structured_42)
       (process_query model show true "count") tt =
    (Err TypeError, tt,
     [ListTools; first_chat model "count" []]
       ++ map request_of [call_A]
       ++ [follow_up model "count"
             (mkMessage "tool" "42" (Some "count_csv_rows"))]).
Proof.
  apply (process_query_follow_up_without_text model show
           (client_handler [] one_call silent structured_42)
           "count" [] [] one_call [call_A]
           [structured_42 "" JNone] call_A (structured_42 "" JNone)
           (mkMessage "tool" "42" (Some "count_csv_rows")) silent);
    try reflexivity.
  simpl. repeat split; reflexivity.
Defined.

End DispatchMore.

(* ===================================================================== *)
(** ** The client object: connecting *)
(* ===================================================================== *)

Module ConnectFacts.
Import Py Interaction Embedding RunFacts EmbeddingFacts Shell Examples Scenarios.

Lemma list_ascii_of_string_app s1 s2 :
  String.list_ascii_of_string (s1 +:+ s2)
  = String.list_ascii_of_string s1 ++ String.list_ascii_of_string s2.
Proof.
  induction s1 as [|c s1 IH]; [reflexivity |].
  change (c :: String.list_ascii_of_string (s1 +:+ s2)
          = c :: (String.list_ascii_of_string s1 ++ String.list_ascii_of_string s2)).
  by f_equal.
Qed.

Lemma string_of_list_ascii_app k s :
  String.string_of_list_ascii (k ++ String.list_ascii_of_string s)
  = String.string_of_list_ascii k +:+ s.
Proof.
  induction k as [|c k IH].
  - apply String.string_of_list_ascii_of_string.
  - change (String c (String.string_of_list_ascii (k ++ String.list_ascii_of_string s))
            = String c (String.string_of_list_ascii k +:+ s)).
    by f_equal.
Qed.

(** [endswith] is true exactly for the strings that end with the suffix. *)
Lemma endswith_spec s suffix :
  endswith s suffix = true <-> exists stem, s = stem +:+ suffix.
Proof.
  unfold endswith. rewrite bool_decide_eq_true. split.
  - intros [k Hk]. exists (String.string_of_list_ascii k).
    rewrite <- (String.string_of_list_ascii_of_string s), Hk.
    apply string_of_list_ascii_app.
  - intros [stem ->]. exists (String.list_ascii_of_string stem).
    apply list_ascii_of_string_app.
Qed.

(** No string ends with both [.py] and [.js]. *)
Lemma py_excludes_js s :
  endswith s ".py" = true -> endswith s ".js" = false.
Proof.
  unfold endswith. rewrite bool_decide_eq_true, bool_decide_eq_false.
  intros Hpy Hjs.
  assert (Hp1 : String.list_ascii_of_string ".py" !! 1 = Some "p"%char)
    by reflexivity.
  assert (Hj1 : String.list_ascii_of_string ".js" !! 1 = Some "j"%char)
    by reflexivity.
  pose proof (suffix_lookup_Some _ _ 1 _ Hp1 Hpy) as Hp.
  pose proof (suffix_lookup_Some _ _ 1 _ Hj1 Hjs) as Hj.
  change (length (String.list_ascii_of_string ".py")) with 3 in Hp.
  change (length (String.list_ascii_of_string ".js")) with 3 in Hj.
  rewrite Hp in Hj. discriminate.
Qed.

Section Connect.
Context (OLLAMA_MODEL : string) (py_str : json -> string).
Context (py_repr : list string -> string) (str_exn : exn -> string).
Context (strip lower : string -> string) (format_exc : exn -> string).
Context (H : handler answer).

#[local] Abbreviation connect_to_server := (Shell.connect_to_server py_repr).
#[local] Abbreviation connect_to_sse_server := (Shell.connect_to_sse_server py_repr).
#[local] Abbreviation connected_banner := (Shell.connected_banner py_repr).

(** Entering a context: it is on the exit stack once entered. *)
Lemma run_enter r st log :
  run H (enter r st) log =
  match H r log with
  | Ok v => (Ok v, pushed r st, log ++ [r])
  | Err e => (Err e, st, log ++ [r])
  end.
Proof. unfold enter. cbn [run]. by destruct (H r log). Qed.

(** X15.  [connect_to_server] chooses the interpreter by the end of the
    script path: a path that ends with [.py] starts ["python"], a path
    that ends with [.js] starts ["node"], each with the path as only
    argument, and no path does both; any other path (also [.PY], or no
    extension) raises [ValueError] before any request, leaving the object
    untouched. *)
Theorem connect_to_server_command server_script_path st :
  ((forall stem, server_script_path <> stem +:+ ".py") ->
   (forall stem, server_script_path <> stem +:+ ".js") ->
   exec H (connect_to_server server_script_path) st
     = (Err (ValueError "Server script must be a .py or .js file"), st, [])) /\
  (forall stem, server_script_path = stem +:+ ".py" ->
     exists rest,
       (exec H (connect_to_server server_script_path) st).2
         = StdioClient "python" [server_script_path] :: rest) /\
  (forall stem, server_script_path = stem +:+ ".js" ->
     exists rest,
       (exec H (connect_to_server server_script_path) st).2
         = StdioClient "node" [server_script_path] :: rest).
Proof.
  assert (Hrun : forall cmd (rest_prog : unit -> M answer state unit),
    exists rest,
      (run H (bind (enter (StdioClient cmd [server_script_path]))
                rest_prog st) []).2
      = StdioClient cmd [server_script_path] :: rest).
  { intros cmd rest_prog. rewrite run_bind, run_enter. cbn [app].
    destruct (H (StdioClient cmd [server_script_path]) []) as [u|e].
    - destruct (run_log_extends H
                  (rest_prog u (pushed (StdioClient cmd [server_script_path]) st))
                  [StdioClient cmd [server_script_path]]) as [more ->].
      by exists more.
    - by exists []. }
  split; [| split].
  - intros Hpy Hjs. unfold exec, Shell.connect_to_server. cbv zeta.
    assert (endswith server_script_path ".py" = false) as ->.
    { apply not_true_is_false. intros [stem ->]%endswith_spec. by eapply Hpy. }
    assert (endswith server_script_path ".js" = false) as ->.
    { apply not_true_is_false. intros [stem ->]%endswith_spec. by eapply Hjs. }
    reflexivity.
  - intros stem Hstem. unfold exec, Shell.connect_to_server. cbv zeta.
    assert (endswith server_script_path ".py" = true) as ->
      by (apply endswith_spec; eauto).
    cbn [orb negb]. apply Hrun.
  - intros stem Hstem. unfold exec, Shell.connect_to_server. cbv zeta.
    assert (Hjs : endswith server_script_path ".js" = true)
      by (apply endswith_spec; eauto).
    assert (endswith server_script_path ".py" = false) as ->.
    { apply not_true_is_false. intros Hpy.
      apply py_excludes_js in Hpy. congruence. }
    rewrite Hjs. cbn [orb negb]. apply Hrun.
Qed.

(** The object while connecting over SSE: once the transport is entered,
    once the session is entered too, and once the tools are listed. *)
Lemma exec_connect_to_sse_server url st :
  exec H (connect_to_sse_server url) st =
  match H (SseClient url 60) [] with
  | Err e => (Err e, st, [SseClient url 60])
  | Ok _ =>
      let st1 := with_stdio_write (pushed (SseClient url 60) st) in
      match H (OpenSession true) [SseClient url 60] with
      | Err e => (Err e, st1, [SseClient url 60; OpenSession true])
      | Ok _ =>
          let st2 := with_session (pushed (OpenSession true) st1) in
          match H Initialize [SseClient url 60; OpenSession true] with
          | Err e =>
              (Err e, st2, [SseClient url 60; OpenSession true; Initialize])
          | Ok _ =>
              match H (Session Client.ListTools)
                      [SseClient url 60; OpenSession true; Initialize] with
              | Err e => (Err e, st2, sse_handshake url)
              | Ok tools =>
                  (Ok tt,
                   with_stdout (stdout st ++ [connected_banner tools]) st2,
                   sse_handshake url)
              end
          end
      end
  end.
Proof.
  unfold exec, Shell.connect_to_sse_server.
  rewrite run_bind, run_enter. cbn [app].
  destruct (H (SseClient url 60) []) as [u1|e]; [| reflexivity].
  rewrite run_bind. cbn [set_stdio_write run].
  rewrite run_bind, run_enter. cbn [app].
  destruct (H (OpenSession true) [SseClient url 60]) as [u2|e];
    [| reflexivity].
  rewrite run_bind. cbn [set_session run].
  rewrite run_bind.
  change (run H (Interaction.await Initialize
                   (with_session
                      (pushed (OpenSession true)
                         (with_stdio_write (pushed (SseClient url 60) st)))))
              [SseClient url 60; OpenSession true])
    with (H Initialize [SseClient url 60; OpenSession true],
          with_session
            (pushed (OpenSession true)
               (with_stdio_write (pushed (SseClient url 60) st))),
          [SseClient url 60; OpenSession true; Initialize]).
  destruct (H Initialize [SseClient url 60; OpenSession true]) as [u3|e];
    [| reflexivity].
  rewrite run_bind.
  change (run H (Interaction.await (Session Client.ListTools)
                   (with_session
                      (pushed (OpenSession true)
                         (with_stdio_write (pushed (SseClient url 60) st)))))
              [SseClient url 60; OpenSession true; Initialize])
    with (H (Session Client.ListTools)
            [SseClient url 60; OpenSession true; Initialize],
          with_session
            (pushed (OpenSession true)
               (with_stdio_write (pushed (SseClient url 60) st))),
          sse_handshake url).
  destruct (H (Session Client.ListTools)
              [SseClient url 60; OpenSession true; Initialize]) as [tools|e];
    reflexivity.
Qed.


End Connect.

Lemma connect_to_server_command_witness :
  exists rest,
    (exec (shell_handler [] (client_handler [tool_rows] silent silent structured_42))
          (connect_to_server show_list "server.py") initial_state).2
      = StdioClient "python" ["server.py"] :: rest.
Proof.
  apply (proj1 (proj2 (connect_to_server_command show_list
           (shell_handler [] (client_handler [tool_rows] silent silent structured_42))
           "server.py" initial_state)) "server").
  reflexivity.
Defined.


End ConnectFacts.

(* ===================================================================== *)
(** ** The client object: the chat loop and [main] *)
(* ===================================================================== *)

Module ChatFacts.
Import Py Interaction Embedding RunFacts EmbeddingFacts Shell ConnectFacts.
Import Examples Scenarios.

Section Chat.
Context (OLLAMA_MODEL : string) (py_str : json -> string).
Context (py_repr : list string -> string) (str_exn : exn -> string).
Context (strip lower : string -> string) (format_exc : exn -> string).
Context (H : handler answer).

#[local] Abbreviation process_query :=
  (Shell.process_query OLLAMA_MODEL py_str).
#[local] Abbreviation chat_iteration :=
  (Shell.chat_iteration OLLAMA_MODEL py_str str_exn strip lower format_exc).
#[local] Abbreviation chat_passes :=
  (Shell.chat_passes OLLAMA_MODEL py_str str_exn strip lower format_exc).
#[local] Abbreviation chat_loop :=
  (Shell.chat_loop OLLAMA_MODEL py_str str_exn strip lower format_exc).
#[local] Abbreviation main :=
  (Shell.main OLLAMA_MODEL py_str py_repr str_exn strip lower format_exc).
#[local] Abbreviation reported := (Shell.reported str_exn format_exc).
#[local] Abbreviation after_query := (Shell.after_query str_exn format_exc).
#[local] Abbreviation query := (Client.process_query OLLAMA_MODEL py_str).

(** A query inside the object is the query against the session the object
    holds. *)
Lemma run_process_query text st log :
  run H (process_query text st) log =
  match exec (session_of H log) (query (session st) text) tt with
  | (r, _, l) => (r, st, log ++ map Session l)
  end.
Proof.
  unfold Shell.process_query, exec. rewrite run_bind. cbn [get run].
  unfold lift_query. rewrite run_pbind, run_translate_from.
  change (restrict Session _ H log) with (session_of H log).
  assert (Haux : forall x : result string * unit * list Client.request,
    run H (let '(r, _) := (x.1, log ++ map Session x.2).1 in
           Ret (result string * state) (r, st))
          (x.1, log ++ map Session x.2).2
    = (let '(r, _, l) := x in (r, st, log ++ map Session l))).
  { by intros [[r []] l]. }
  exact (Haux _).
Qed.

Lemma run_report e st log :
  run H (bind (print (format_exc e))
           (fun _ => bind (print (nl +:+ "Error: " +:+ str_exn e))
                       (fun _ => ret false)) st) log
  = (Ok false, reported e st, log).
Proof.
  unfold Shell.reported. cbn. by rewrite <- app_assoc.
Qed.

(** One pass of the loop: the line read decides. *)
Lemma run_chat_iteration st log :
  run H (chat_iteration st) log =
  match H (Input prompt) log with
  | Err e => (Ok false, reported e st, log ++ [Input prompt])
  | Ok line =>
      if decide (lower (strip line) = "quit")
      then (Ok true, st, log ++ [Input prompt])
      else
        match exec (session_of H (log ++ [Input prompt]))
                   (query (session st) (strip line)) tt with
        | (r, _, l) =>
            (Ok false, after_query r st,
             (log ++ [Input prompt]) ++ map Session l)
        end
  end.
Proof.
  unfold Shell.chat_iteration. rewrite run_try_except, run_bind.
  change (run H (Interaction.await (Input prompt) st) log)
    with (H (Input prompt) log, st, log ++ [Input prompt]).
  destruct (H (Input prompt) log) as [line|e]; [| apply run_report].
  destruct (decide (lower (strip line) = "quit")); [reflexivity |].
  rewrite run_bind, run_process_query.
  destruct (exec (session_of H (log ++ [Input prompt]))
              (query (session st) (strip line)) tt) as [[[response|e] u] l];
    [reflexivity | apply run_report].
Qed.

Lemma run_chat_passes_S n st log :
  run H (chat_passes (S n) st) log =
  match run H (chat_iteration st) log with
  | (Ok true, st', log') => (Ok true, st', log')
  | (Ok false, st', log') => run H (chat_passes n st') log'
  | (Err e, st', log') => (Err e, st', log')
  end.
Proof.
  cbn [Shell.chat_passes]. rewrite run_bind.
  destruct (run H (chat_iteration st) log) as [[[[|]|e] st'] log'];
    reflexivity.
Qed.

(** What a pass does to the object and to the log. *)
Lemma chat_iteration_outcome st log :
  exists left st' more,
    run H (chat_iteration st) log = (Ok left, st', log ++ more) /\
    session st' = session st /\
    Forall (fun r => is_input r || is_session r = true) more /\
    (session st = false -> Forall (fun r => is_input r = true) more).
Proof.
  rewrite run_chat_iteration.
  destruct (H (Input prompt) log) as [line|e].
  - destruct (decide (lower (strip line) = "quit")).
    + exists true, st, [Input prompt]. repeat split; repeat constructor.
    + destruct (exec (session_of H (log ++ [Input prompt]))
                  (query (session st) (strip line)) tt) as [[r u] l] eqn:Hq.
      exists false, (after_query r st), (Input prompt :: map Session l).
      split; [by rewrite <- app_assoc |].
      split; [by destruct r |].
      split.
      * constructor; [reflexivity |]. apply Forall_map, Forall_true. done.
      * intros Hno. rewrite Hno in Hq. cbv in Hq.
        injection Hq as <- <- <-. repeat constructor.
  - exists false, (reported e st), [Input prompt].
    repeat split; repeat constructor.
Qed.

Lemma run_chat_loop fuel st log :
  run H (chat_loop fuel st) log = run H (chat_passes fuel (greeted st)) log.
Proof.
  unfold Shell.chat_loop, greeted.
  rewrite run_bind. cbn [print run]. rewrite run_bind. cbn [print run].
  unfold with_stdout. cbn [session stdio sse write exit_stack stdout].
  by rewrite <- app_assoc.
Qed.

Lemma chat_passes_outcome n : forall st log,
  exists left st' more,
    run H (chat_passes n st) log = (Ok left, st', log ++ more) /\
    session st' = session st /\
    Forall (fun r => is_input r || is_session r = true) more /\
    (session st = false -> Forall (fun r => is_input r = true) more).
Proof.
  induction n as [|n IH]; intros st log.
  - exists false, st, []. rewrite app_nil_r. repeat split; constructor.
  - rewrite run_chat_passes_S.
    destruct (chat_iteration_outcome st log)
      as (left & st1 & more1 & -> & Hs1 & Hm1 & Hi1).
    destruct left.
    + by exists true, st1, more1.
    + destruct (IH st1 (log ++ more1))
        as (left & st2 & more2 & -> & Hs2 & Hm2 & Hi2).
      exists left, st2, (more1 ++ more2).
      rewrite app_assoc. repeat split; [congruence | by apply Forall_app |].
      intros Hno. apply Forall_app. split; [by apply Hi1 |].
      apply Hi2. congruence.
Qed.

(** X17.  The chat loop never ends with an exception: whatever the user
    types and however the session, the model or [input] itself fail with
    an exception of class [Exception], every
    pass ends normally, the failure being printed, and the object keeps its
    session.  The loop only reads lines and talks to the session; without
    a session it only reads lines. *)
Theorem chat_loop_never_raises fuel st :
  exists left st' log,
    exec H (chat_loop fuel) st = (Ok left, st', log) /\
    session st' = session st /\
    Forall (fun r => is_input r || is_session r = true) log /\
    (session st = false -> Forall (fun r => is_input r = true) log).
Proof.
  unfold exec. rewrite run_chat_loop.
  destruct (chat_passes_outcome fuel (greeted st) [])
    as (left & st' & more & Hrun & Hs & Hm & Hi).
  exists left, st', more. by rewrite Hrun.
Qed.

(** X18.  A first line that is ["quit"] once stripped and lowered ends
    the loop at once, whatever the number of passes allowed: the two
    opening lines are all that is printed, and the session is not
    contacted. *)
Theorem chat_loop_quit n st line :
  H (Input prompt) [] = Ok line ->
  lower (strip line) = "quit" ->
  exec H (chat_loop (S n)) st = (Ok true, greeted st, [Input prompt]).
Proof.
  intros Hline Hquit. unfold exec.
  rewrite run_chat_loop, run_chat_passes_S, run_chat_iteration, Hline.
  by rewrite decide_True by exact Hquit.
Qed.


(** X20.  When [input] raises on every call (end of input), the loop does
    not stop: each pass prints the traceback and the error and asks
    again, so after any number of passes the loop is still running. *)
Theorem chat_loop_spins_at_end_of_input e n st :
  (forall log, H (Input prompt) log = Err e) ->
  exec H (chat_loop n) st =
    (Ok false, Nat.iter n (reported e) (greeted st),
     replicate n (Input prompt)).
Proof.
  intros Hend. unfold exec. rewrite run_chat_loop.
  assert (Hgen : forall k st0 log0,
    run H (chat_passes k st0) log0 =
      (Ok false, Nat.iter k (reported e) st0,
       log0 ++ replicate k (Input prompt))).
  { assert (Hswap : forall k x,
      Nat.iter k (reported e) (reported e x)
      = reported e (Nat.iter k (reported e) x)).
    { induction k as [|k IHk]; intros x; [reflexivity |].
      simpl. f_equal. apply IHk. }
    induction k as [|k IH]; intros st0 log0.
    - cbn. by rewrite app_nil_r.
    - rewrite run_chat_passes_S, run_chat_iteration, Hend, IH, Hswap.
      by rewrite <- app_assoc. }
  by rewrite Hgen.
Qed.

Lemma run_cleanup st log :
  run H (cleanup st) log = (H Close log, closed st, log ++ [Close]).
Proof. reflexivity. Qed.

Lemma run_try_finally {A} inside (body : M answer state A) final st log :
  run H (try_finally inside body final st) log =
  match run H (body st) log with
  | (Ok a, st', log') =>
      if inside a then (Ok a, st', log')
      else
        match run H (final st') log' with
        | (Ok _, st'', log'') => (Ok a, st'', log'')
        | (Err e, st'', log'') => (Err e, st'', log'')
        end
  | (Err e0, st', log') =>
      match run H (final st') log' with
      | (Ok _, st'', log'') => (Err e0, st'', log'')
      | (Err e, st'', log'') => (Err e, st'', log'')
      end
  end.
Proof.
  unfold try_finally. rewrite run_pbind.
  destruct (run H (body st) log) as [[[a|e0] st'] log']; cbn [fst snd].
  - destruct (inside a); [reflexivity |]. rewrite run_pbind.
    destruct (run H (final st') log') as [[[u|e] st''] log'']; reflexivity.
  - rewrite run_pbind.
    destruct (run H (final st') log') as [[[u|e] st''] log'']; reflexivity.
Qed.

(** The [try] block of [main]: connecting, then the loop. *)
Lemma run_main_body fuel :
  exists r st' body_log,
    run H (bind (Shell.connect_to_sse_server py_repr "http://localhost:8000/sse")
             (fun _ => chat_loop fuel) initial_state) []
      = (r, st', body_log) /\
    Forall (fun q => is_close q = false) body_log /\
    (forall e, H (SseClient "http://localhost:8000/sse" 60) [] = Err e ->
       r = Err e /\ st' = initial_state /\
       body_log = [SseClient "http://localhost:8000/sse" 60]).
Proof.
  set (url := "http://localhost:8000/sse").
  rewrite run_bind.
  change (run H (Shell.connect_to_sse_server py_repr url initial_state) [])
    with (exec H (Shell.connect_to_sse_server py_repr url) initial_state).
  rewrite exec_connect_to_sse_server. unfold sse_handshake. cbv zeta.
  destruct (H (SseClient url 60) []) as [u1|e1].
  2: { eexists _, _, _. split; [reflexivity |].
       split; [repeat constructor |]. by intros e [= <-]. }
  destruct (H (OpenSession true) [SseClient url 60]) as [u2|e2].
  2: { eexists _, _, _. split; [reflexivity |].
       split; [repeat constructor | discriminate]. }
  destruct (H Initialize [SseClient url 60; OpenSession true]) as [u3|e3].
  2: { eexists _, _, _. split; [reflexivity |].
       split; [repeat constructor | discriminate]. }
  destruct (H (Session Client.ListTools)
              [SseClient url 60; OpenSession true; Initialize])
    as [tools|e4].
  2: { eexists _, _, _. split; [reflexivity |].
       split; [repeat constructor | discriminate]. }
  rewrite run_chat_loop.
  match goal with
  | |- context [run H (chat_passes fuel ?st0) ?log0] =>
      destruct (chat_passes_outcome fuel st0 log0)
        as (left & st2 & more & -> & _ & Hm & _)
  end.
  eexists _, _, _. split; [reflexivity |]. split; [| discriminate].
  apply Forall_app. split; [repeat constructor |].
  eapply Forall_impl; [exact Hm |].
  intros [] Hq; try reflexivity; discriminate Hq.
Qed.


End Chat.

Lemma chat_loop_quit_witness :
  exec (shell_handler ["quit"] (client_handler [] silent silent structured_42))
       (chat_loop model show show_exn no_strip no_lower trace_of 3)
       initial_state
    = (Ok true, greeted initial_state, [Input prompt]).
Proof.
  apply (chat_loop_quit model show show_exn no_strip no_lower trace_of
           (shell_handler ["quit"] (client_handler [] silent silent structured_42))
           2 initial_state "quit");
    reflexivity.
Defined.


Lemma chat_loop_spins_at_end_of_input_witness :
  exec (shell_handler [] (client_handler [] silent silent structured_42))
       (chat_loop model show show_exn no_strip no_lower trace_of 2)
       initial_state
    = (Ok false,
       Nat.iter 2 (reported show_exn trace_of (Other "EOF when reading a line"))
         (greeted initial_state),
       replicate 2 (Input prompt)).
Proof.
  apply (chat_loop_spins_at_end_of_input model show show_exn no_strip no_lower
           trace_of
           (shell_handler [] (client_handler [] silent silent structured_42))
           (Other "EOF when reading a line") 2 initial_state).
  intros log. reflexivity.
Defined.


End ChatFacts.
